(** * rpy2.situation: locating R and collecting build flags

    A shallow embedding of [rpy2/situation.py].  Python text is modelled
    as [string] (code points below 256), [None] as [option], exceptions
    as the [Raise] outcome of a small effect monad, and everything the
    module asks of its host (environment variables, [sys.platform],
    child processes, the Windows registry) as a read-only [World].
    Observable side effects (child processes started, registry queries,
    warnings, printed lines) are collected in an event log. *)

From Stdlib Require Import String Ascii List Bool Arith ZArith Lia.
From stdpp Require Import base option list gmap strings.

Local Open Scope Z_scope.

(** ** Python's built-in string operations used by the module *)

Module PyStr.

(** [s.startswith(p)] *)
Fixpoint startswith (s p : string) {struct p} : bool :=
  match p with
  | EmptyString => true
  | String b p' =>
      match s with
      | EmptyString => false
      | String a s' => Ascii.eqb a b && startswith s' p'
      end
  end.

(** [sub in s] *)
Fixpoint contains (sub s : string) : bool :=
  startswith s sub ||
  match s with
  | EmptyString => false
  | String _ s' => contains sub s'
  end.

(** [str.isspace] on one character, for code points below 256. *)
Definition is_space (c : ascii) : bool :=
  let n := nat_of_ascii c in
  ((9 <=? n) && (n <=? 13) || (28 <=? n) && (n <=? 32)
   || (n =? 133) || (n =? 160))%nat.

Fixpoint lstrip (s : string) : string :=
  match s with
  | String c s' => if is_space c then lstrip s' else s
  | EmptyString => EmptyString
  end.

Definition rstrip (s : string) : string :=
  String.rev (lstrip (String.rev s)).

(** [s.strip()] *)
Definition strip (s : string) : string := rstrip (lstrip s).

Definition upper_char (c : ascii) : ascii :=
  let n := nat_of_ascii c in
  if ((97 <=? n) && (n <=? 122))%nat then ascii_of_nat (n - 32) else c.

(** [s.upper()]: letters a-z are mapped to A-Z.  The remaining code
    points below 256 are kept: Python maps them to themselves or to
    text with characters that the names compared against do not
    have. *)
Fixpoint upper (s : string) : string :=
  match s with
  | EmptyString => EmptyString
  | String c s' => String (upper_char c) (upper s')
  end.

(** [s.split(sep)] for a non-empty [sep]: cut at the leftmost
    occurrences of [sep], scanning left to right.  [skip] counts the
    characters of a separator still to be dropped and [cur] holds the
    current piece in reverse. *)
Fixpoint split_go (sep : string) (skip : nat) (cur s : string)
  : list string :=
  match s with
  | EmptyString => [String.rev cur]
  | String c s' =>
      match skip with
      | S k => split_go sep k cur s'
      | O =>
          if startswith s sep
          then String.rev cur
                 :: split_go sep (String.length sep - 1) EmptyString s'
          else split_go sep O (String c cur) s'
      end
  end.

Definition split (s sep : string) : list string :=
  split_go sep O EmptyString s.

(** [sep.join(l)] *)
Fixpoint join (sep : string) (l : list string) : string :=
  match l with
  | [] => EmptyString
  | [x] => x
  | x :: l' => x +:+ sep +:+ join sep l'
  end.

(** [bytes.decode('ascii', 'ignore')]: bytes above 127 are dropped. *)
Fixpoint decode_ascii_ignore (b : string) : string :=
  match b with
  | EmptyString => EmptyString
  | String c b' =>
      if (nat_of_ascii c <? 128)%nat
      then String c (decode_ascii_ignore b')
      else decode_ascii_ignore b'
  end.

(** Newline translation of a text-mode pipe
    ([universal_newlines=True]): CR LF and a lone CR become LF. *)
Fixpoint universal_newlines (s : string) : string :=
  match s with
  | EmptyString => EmptyString
  | String c s' =>
      if Ascii.eqb c "013"
      then match s' with
           | String c' s'' =>
               if Ascii.eqb c' "010"
               then String "010" (universal_newlines s'')
               else String "010" (universal_newlines s')
           | EmptyString => String "010" EmptyString
           end
      else String c (universal_newlines s')
  end.

(** Truth value of an optional string: [None] and [''] are false. *)
Definition truthy (o : option string) : bool :=
  match o with
  | Some (String _ _) => true
  | _ => false
  end.

End PyStr.

(** ** Exceptions, events and the host *)

Inductive exn :=
| OSError                         (* the child process cannot be started *)
| CalledProcessError (status : Z) (* the child process exited non-zero *)
| ImportError
| IndexError
| ValueError (msg : string)
| TypeError (msg : string)
| AssertionError
| SystemExit (code : Z).

(** [except Exception] catches every exception above but [SystemExit],
    which derives from [BaseException] only. *)
Definition is_Exception (e : exn) : bool :=
  match e with
  | SystemExit _ => false
  | _ => true
  end.

Inductive result (A : Type) :=
| Ok (a : A)
| Raise (e : exn).
Arguments Ok {A} a.
Arguments Raise {A} e.

Inductive event :=
| Exec (cmd : list string)             (* subprocess.check_output(cmd) *)
| RegistryQuery (key value : string)   (* winreg.OpenKeyEx / QueryValueEx *)
| Warn (msg : string)                  (* warnings.warn(msg) *)
| Stdout (words : list string).        (* print(list2cmdline(words)) *)

(** How a child process ends. *)
Inductive proc_outcome :=
| CannotLaunch
| Exits (status : Z) (stdout : string).

Record World := {
  environ : gmap string string;               (* os.environ *)
  platform : string;                          (* sys.platform *)
  version : string;                           (* sys.version *)
  run : list string -> proc_outcome;          (* what a command does *)
  registry : string -> string -> option string;
                                     (* HKEY_LOCAL_MACHINE key, value *)
  ntpath_join : string -> list string -> string
                                     (* os.path.join on Windows *)
}.

(** [os.linesep] *)
Definition linesep (w : World) : string :=
  if String.eqb (platform w) "win32"
  then String "013" (String "010" EmptyString)
  else String "010" EmptyString.

(** ** The effect monad: read the world, log events, maybe raise *)

Definition M (A : Type) : Type := World -> list event * result A.

Definition ret {A} (a : A) : M A := fun _ => ([], Ok a).

Definition raise {A} (e : exn) : M A := fun _ => ([], Raise e).

Definition bind {A B} (m : M A) (f : A -> M B) : M B :=
  fun w =>
    match m w with
    | (l1, Ok a) => let '(l2, r) := f a w in (l1 ++ l2, r)
    | (l1, Raise e) => (l1, Raise e)
    end.

Definition emit (e : event) : M unit := fun _ => ([e], Ok tt).

Definition ask : M World := fun w => ([], Ok w).

(** [try: m  except Exception: h] *)
Definition try_except {A} (m : M A) (h : M A) : M A :=
  fun w =>
    match m w with
    | (l1, Raise e) =>
        if is_Exception e
        then let '(l2, r) := h w in (l1 ++ l2, r)
        else (l1, Raise e)
    | r => r
    end.

Declare Scope py_scope.
Delimit Scope py_scope with py.
Notation "x <- m ;; k" := (bind m (fun x => k))
  (at level 100, m at next level, right associativity) : py_scope.
Notation "m ;;; k" := (bind m (fun _ => k))
  (at level 100, right associativity) : py_scope.
Local Open Scope py_scope.

(** [subprocess.check_output(cmd)], raw standard output. *)
Definition check_output (cmd : list string) : M string :=
  fun w =>
    ([Exec cmd],
     match run w cmd with
     | CannotLaunch => Raise OSError
     | Exits status out =>
         if Z.eqb status 0 then Ok out else Raise (CalledProcessError status)
     end).

(** [subprocess.check_output(cmd, universal_newlines=True)] *)
Definition check_output_text (cmd : list string) : M string :=
  out <- check_output cmd;;
  ret (PyStr.universal_newlines out).

(** [os.environ.get(name)] *)
Definition environ_get (name : string) : M (option string) :=
  fun w => ([], Ok (environ w !! name)).

(** Lift a pure outcome into the monad. *)
Definition lift {A} (r : result A) : M A := fun _ => ([], r).

(** [l[1]] *)
Definition item1 (l : list string) : result string :=
  match l with
  | _ :: x :: _ => Ok x
  | _ => Raise IndexError
  end.

(** ** CFFI mode *)

Inductive CFFI_MODE := API | ABI | BOTH.

Definition value (m : CFFI_MODE) : string :=
  match m with
  | API => "API"
  | ABI => "ABI"
  | BOTH => "BOTH"
  end.

Fixpoint first_mode (cffi_mode : string) (ms : list CFFI_MODE)
  (default : CFFI_MODE) : CFFI_MODE :=
  match ms with
  | [] => default
  | m :: ms' =>
      if String.eqb (PyStr.upper cffi_mode) (value m) then m
      else first_mode cffi_mode ms' default
  end.

Definition get_cffi_mode (default : CFFI_MODE) : M CFFI_MODE :=
  v <- environ_get "RPY2_CFFI_MODE";;
  let cffi_mode := from_option id EmptyString v in
  ret (first_mode cffi_mode [API; ABI; BOTH] default).

(** ** Probing the R executable *)

(** The first line of the output, or the second one when the first
    starts with WARNING: the shared tail of the two probes. *)
Definition first_line (lines : list string) : result string :=
  match lines with
  | [] => Raise IndexError
  | l0 :: _ =>
      if PyStr.startswith l0 "WARNING"
      then item1 lines
      else Ok (PyStr.strip l0)
  end.

Definition r_version_from_subprocess : M (option string) :=
  tmp <- try_except (out <- check_output ["R"; "--version"];; ret (Some out))
                    (ret None);;
  match tmp with
  | None => ret None
  | Some tmp =>
      w <- ask;;
      let r_version :=
        PyStr.split (PyStr.decode_ascii_ignore tmp) (linesep w) in
      r_version <- lift (first_line r_version);;
      ret (Some r_version)
  end.

Definition r_home_from_subprocess : M (option string) :=
  tmp <- try_except (out <- check_output_text ["R"; "RHOME"];;
                     ret (Some out))
                    (ret None);;
  match tmp with
  | None => ret None
  | Some tmp =>
      w <- ask;;
      let r_home := PyStr.split tmp (linesep w) in
      r_home <- lift (first_line r_home);;
      ret (Some r_home)
  end.

Definition registry_key : string := "Software\R-core\R".

(** The module [winreg] exists on Windows only, and the import stands
    outside the [try].  The branch for Python 2 is left out: the
    annotations of this file are Python 3 syntax. *)
Definition r_home_from_registry : M (option string) :=
  w <- ask;;
  if String.eqb (platform w) "win32"
  then emit (RegistryQuery registry_key "InstallPath");;;
       ret (registry w registry_key "InstallPath")
  else raise ImportError.

(** ** Paths *)

Definition endswith (s p : string) : bool :=
  PyStr.startswith (String.rev s) (String.rev p).

(** [posixpath.join(a, *p)] *)
Fixpoint posixpath_join (path : string) (p : list string) : string :=
  match p with
  | [] => path
  | b :: p' =>
      if PyStr.startswith b "/" then posixpath_join b p'
      else if String.eqb path EmptyString || endswith path "/"
           then posixpath_join (path +:+ b) p'
           else posixpath_join (path +:+ "/" +:+ b) p'
  end.

(** [os.path.join(a, *p)] *)
Definition os_path_join (a : string) (p : list string) : M string :=
  w <- ask;;
  ret (if String.eqb (platform w) "win32"
       then ntpath_join w a p
       else posixpath_join a p).

Definition dquote : string := String "034" EmptyString.

(** The text of the error of [get_rlib_path]: the literal is raised as
    it stands, [%s] included. *)
Definition unsupported_system_msg : string :=
  "The system " +:+ dquote +:+ "%s" +:+ dquote +:+ " is not supported.".

Definition get_rlib_path (r_home system : string) : M string :=
  if String.eqb system "Linux"
  then os_path_join r_home ["lib"; "libR.so"]
  else if String.eqb system "Darwin"
       then os_path_join r_home ["lib"; "libR.dylib"]
       else raise (ValueError unsupported_system_msg).

(** ** R's home *)

Definition get_r_home : M (option string) :=
  r_home <- environ_get "R_HOME";;
  r_home <- (if negb (PyStr.truthy r_home)
             then r_home_from_subprocess
             else ret r_home);;
  w <- ask;;
  r_home <- (if negb (PyStr.truthy r_home)
                && String.eqb (platform w) "win32"
             then r_home_from_registry
             else ret r_home);;
  ret r_home.

Definition get_r_exec (r_home : string) : M string :=
  w <- ask;;
  if String.eqb (platform w) "win32" && PyStr.contains "64 bit" (version w)
  then os_path_join r_home ["bin"; "x64"; "R"]
  else os_path_join r_home ["bin"; "R"].

(** ** Output of [R CMD config] *)

Definition _get_r_cmd_config (r_home about : string) (allow_empty : bool)
  : M (list string) :=
  r_exec <- get_r_exec r_home;;
  let cmd := [r_exec; "CMD"; "config"; about] in
  emit (Stdout cmd);;;
  output <- check_output_text cmd;;
  w <- ask;;
  let output := PyStr.split output (linesep w) in
  match output with
  | [] => raise IndexError
  | l0 :: rest =>
      if PyStr.startswith l0 "WARNING"
      then emit (Warn ("R emitting a warning: " +:+ l0));;;
           ret rest
      else ret output
  end.

Definition _R_LIBS : list string := ["LAPACK_LIBS"; "BLAS_LIBS"].
Definition _R_FLAGS : list string := ["--ldflags"; "--cppflags"].

Definition get_r_libs (r_home libs : string) : M (list string) :=
  _get_r_cmd_config r_home libs true.

(** ** [shlex.split] *)

(** Modelled on CPython's [shlex.shlex.read_token] as [shlex.split]
    sets it up: POSIX mode, [whitespace_split] on, no comment
    characters, no punctuation characters. *)
Module Shlex.

Inductive state :=
| Ws                                (* ' ': between tokens *)
| Word                              (* 'a': inside a token *)
| Quote (q : ascii)                 (* inside quotes opened by q *)
| Esc (escapedstate : option ascii).
               (* after a backslash met in a word or inside quotes q *)

Definition whitespace (c : ascii) : bool :=
  Ascii.eqb c " " || Ascii.eqb c "009" || Ascii.eqb c "013"
  || Ascii.eqb c "010".

Definition quotes (c : ascii) : bool :=
  Ascii.eqb c "'" || Ascii.eqb c "034".

Definition escape (c : ascii) : bool := Ascii.eqb c "092".

Definition escapedquotes (c : ascii) : bool := Ascii.eqb c "034".

Definition push (token : string) (c : ascii) : string :=
  token +:+ String c EmptyString.

(** One pass over the text.  [token] and [quoted] belong to the token
    being read; they start afresh after each token. *)
Fixpoint read (st : state) (token : string) (quoted : bool) (s : string)
  : result (list string) :=
  match s with
  | EmptyString =>
      match st with
      | Ws => Ok []
      | Word =>
          if negb quoted && String.eqb token EmptyString
          then Ok [] else Ok [token]
      | Quote _ => Raise (ValueError "No closing quotation")
      | Esc _ => Raise (ValueError "No escaped character")
      end
  | String c s' =>
      match st with
      | Ws =>
          if whitespace c then read Ws EmptyString false s'
          else if escape c then read (Esc None) EmptyString false s'
          else if quotes c then read (Quote c) EmptyString false s'
          else read Word (String c EmptyString) false s'
      | Word =>
          if whitespace c then
            if negb (String.eqb token EmptyString) || quoted
            then match read Ws EmptyString false s' with
                 | Ok toks => Ok (token :: toks)
                 | Raise e => Raise e
                 end
            else read Ws token quoted s'
          else if quotes c then read (Quote c) token quoted s'
          else if escape c then read (Esc None) token quoted s'
          else read Word (push token c) quoted s'
      | Quote q =>
          if Ascii.eqb c q then read Word token true s'
          else if escape c && escapedquotes q
               then read (Esc (Some q)) token true s'
               else read (Quote q) (push token c) true s'
      | Esc None => read Word (push token c) quoted s'
      | Esc (Some q) =>
          let token :=
            if negb (escape c) && negb (Ascii.eqb c q)
            then push token "092" else token in
          read (Quote q) (push token c) quoted s'
      end
  end.

Definition split (s : string) : result (list string) :=
  read Ws EmptyString false s.

End Shlex.

(** ** [argparse]: the parser that [get_r_flags] builds *)

(** A value stored by an option: the text given, or the empty list that
    [_get_values] produces when the text attached to the option is
    [--]. *)
Inductive argval :=
| ArgStr (s : string)
| ArgEmptyList.

#[global] Instance argval_eq_dec : EqDecision argval.
Proof. solve_decision. Defined.

(** The attributes [I], [L] and [l] of the parsed arguments. *)
Record Namespace (V : Type) := {
  ns_I : option (list V);
  ns_L : option (list V);
  ns_l : option (list V)
}.
Arguments ns_I {V} _.
Arguments ns_L {V} _.
Arguments ns_l {V} _.

(** Modelled on CPython's [ArgumentParser.parse_known_args] (as of
    Python 3.11) for a parser made by [ArgumentParser()], which
    registers [-h] and [--help], followed by [add_argument] with
    [action='append'] for [-I], [-L] and [-l]; there are no positional
    arguments.  Errors of the parser end in [SystemExit(2)], the help
    action in [SystemExit(0)]; what they print is left out. *)
Module Argparse.

Inductive dest := DestI | DestL | Destl.

Inductive action :=
| Help                    (* nargs = 0 *)
| Append (d : dest).      (* nargs = None: one argument *)

Definition _option_string_actions : list (string * action) :=
  [("-h", Help); ("--help", Help);
   ("-I", Append DestI); ("-L", Append DestL); ("-l", Append Destl)].

Fixpoint lookup (o : string) (tbl : list (string * action))
  : option action :=
  match tbl with
  | [] => None
  | (o', a) :: tbl' => if String.eqb o o' then Some a else lookup o tbl'
  end.

(** [s.split('=', 1)] when ['=' in s] *)
Fixpoint split_eq (s : string) : option (string * string) :=
  match s with
  | EmptyString => None
  | String c s' =>
      if Ascii.eqb c "=" then Some (EmptyString, s')
      else match split_eq s' with
           | Some (a, b) => Some (String c a, b)
           | None => None
           end
  end.

Definition is_digit (c : ascii) : bool :=
  ((48 <=? nat_of_ascii c) && (nat_of_ascii c <=? 57))%nat.

Fixpoint all_digits (s : string) : bool :=
  match s with
  | EmptyString => true
  | String c s' => is_digit c && all_digits s'
  end.

Definition digits1 (s : string) : bool :=
  negb (String.eqb s EmptyString) && all_digits s.

(** [\d*\.\d+] on the whole of [s] *)
Fixpoint decimal (s : string) : bool :=
  match s with
  | EmptyString => false
  | String c s' =>
      if Ascii.eqb c "." then digits1 s'
      else is_digit c && decimal s'
  end.

(** The end anchor of a regular expression also matches before a final
    newline. *)
Definition chomp (s : string) : string :=
  match String.rev s with
  | String c r => if Ascii.eqb c "010" then String.rev r else s
  | EmptyString => s
  end.

(** [_negative_number_matcher]: [^-\d+$|^-\d*\.\d+$] *)
Definition negative_number (s : string) : bool :=
  match s with
  | String c body =>
      Ascii.eqb c "-" && (digits1 (chomp body) || decimal (chomp body))
  | EmptyString => false
  end.

Definition tuple : Type := action * string * option string.

(** The part of an option string before its first [=]. *)
Definition before_eq (s : string) : string :=
  match split_eq s with
  | Some (a, _) => a
  | None => s
  end.

Definition after_eq (s : string) : option string :=
  match split_eq s with
  | Some (_, b) => Some b
  | None => None
  end.

(** [_get_option_tuples], for a string of two characters or more that
    starts with [-]: two leading dashes select the options that the
    text before [=] abbreviates, one dash the option made of the
    first two characters, with the rest as its argument. *)
Definition _get_option_tuples (option_string : string) : list tuple :=
  match option_string with
  | String c0 (String c1 rest) =>
      if Ascii.eqb c1 "-" then
        let option_prefix := before_eq option_string in
        let explicit_arg := after_eq option_string in
        omap (fun '(o, a) =>
                if PyStr.startswith o option_prefix
                then Some (a, o, explicit_arg) else None)
             _option_string_actions
      else
        let short_option_prefix := String c0 (String c1 EmptyString) in
        omap (fun '(o, a) =>
                if String.eqb short_option_prefix o
                then Some (a, o, Some rest)
                else if PyStr.startswith o option_string
                     then Some (a, o, None) else None)
             _option_string_actions
  | _ => []
  end.

Inductive parsed :=
| Positional                 (* None: the pattern gets an 'A' *)
| Optional (a : option action) (option_string : string)
           (explicit_arg : option string)
| Ambiguous.                 (* self.error(...) *)

Definition _parse_optional (arg_string : string) : parsed :=
  match arg_string with
  | EmptyString => Positional
  | String c0 tl =>
      if negb (Ascii.eqb c0 "-") then Positional
      else match lookup arg_string _option_string_actions with
      | Some a => Optional (Some a) arg_string None
      | None =>
      if String.eqb tl EmptyString then Positional
      else
        let by_eq :=
          match split_eq arg_string with
          | Some (o, e) =>
              match lookup o _option_string_actions with
              | Some a => Some (Optional (Some a) o (Some e))
              | None => None
              end
          | None => None
          end in
        match by_eq with
        | Some r => r
        | None =>
            match _get_option_tuples arg_string with
            | _ :: _ :: _ => Ambiguous
            | [(a, o, e)] => Optional (Some a) o e
            | [] =>
                if negative_number arg_string then Positional
                else if PyStr.contains " " arg_string then Positional
                else Optional None arg_string None
            end
        end
      end
  end.

(** The pattern of the argument strings: 'A', '-' or 'O'. *)
Inductive slot :=
| SlotA
| SlotDash
| SlotO (a : option action) (option_string : string)
        (explicit_arg : option string).

Fixpoint slots (after_dashes : bool) (arg_strings : list string)
  : result (list (string * slot)) :=
  match arg_strings with
  | [] => Ok []
  | t :: rest =>
      if after_dashes then
        match slots true rest with
        | Ok r => Ok ((t, SlotA) :: r)
        | Raise e => Raise e
        end
      else if String.eqb t "--" then
        match slots true rest with
        | Ok r => Ok ((t, SlotDash) :: r)
        | Raise e => Raise e
        end
      else
        match _parse_optional t with
        | Ambiguous => Raise (SystemExit 2)
        | Positional =>
            match slots false rest with
            | Ok r => Ok ((t, SlotA) :: r)
            | Raise e => Raise e
            end
        | Optional a o e =>
            match slots false rest with
            | Ok r => Ok ((t, SlotO a o e) :: r)
            | Raise e => Raise e
            end
        end
  end.

(** What [consume_optional] hands to [take_action]. *)
Definition action_tuple : Type := action * list string * string.

(** [consume_optional] without an explicit argument: the option takes
    its arguments from the strings that follow.  The boolean tells
    whether the next string was taken. *)
Definition from_following (a : action) (option_string : string)
  (acc : list action_tuple) (next : option slot) (next_string : string)
  : result (list action_tuple * bool) :=
  match a with
  | Help => Ok (acc ++ [(a, [], option_string)], false)
  | Append _ =>
      match next with
      | Some SlotA => Ok (acc ++ [(a, [next_string], option_string)], true)
      | _ => Raise (SystemExit 2)          (* expected one argument *)
      end
  end.

(** The loop of [consume_optional] while there is an explicit
    argument [e]. *)
Fixpoint with_explicit (a : action) (option_string e : string)
  (acc : list action_tuple) (next : option slot) (next_string : string)
  : result (list action_tuple * bool) :=
  match a with
  | Append _ => Ok (acc ++ [(a, [e], option_string)], false)
  | Help =>
      match option_string, e with
      | String _ (String c1 _), String c e' =>
          if negb (Ascii.eqb c1 "-") then
            let acc := acc ++ [(a, [], option_string)] in
            let option_string := String "-" (String c EmptyString) in
            match lookup option_string _option_string_actions with
            | Some a' =>
                match e' with
                | EmptyString =>
                    from_following a' option_string acc next next_string
                | _ => with_explicit a' option_string e' acc
                         next next_string
                end
            | None => Raise (SystemExit 2)  (* ignored explicit argument *)
            end
          else Raise (SystemExit 2)         (* ignored explicit argument *)
      | _, _ => Raise (SystemExit 2)        (* ignored explicit argument *)
      end
  end.

Definition consume_optional (a : action) (option_string : string)
  (explicit_arg : option string) (next : option slot)
  (next_string : string) : result (list action_tuple * bool) :=
  match explicit_arg with
  | Some e => with_explicit a option_string e [] next next_string
  | None => from_following a option_string [] next next_string
  end.

(** [_get_values] for one argument string: the first [--] is removed
    from the argument strings, and what is left decides the value. *)
Definition _get_values (arg_strings : list string) : argval :=
  match arg_strings with
  | [x] => if String.eqb x "--" then ArgEmptyList else ArgStr x
  | _ => ArgEmptyList
  end.

Definition append (d : dest) (v : argval) (ns : Namespace argval)
  : Namespace argval :=
  let add items := Some (from_option id [] items ++ [v]) in
  match d with
  | DestI => {| ns_I := add (ns_I ns); ns_L := ns_L ns; ns_l := ns_l ns |}
  | DestL => {| ns_I := ns_I ns; ns_L := add (ns_L ns); ns_l := ns_l ns |}
  | Destl => {| ns_I := ns_I ns; ns_L := ns_L ns; ns_l := add (ns_l ns) |}
  end.

(** [take_action] over the tuples of one option string; the help
    action prints the help and leaves with status 0. *)
Fixpoint take_actions (ns : Namespace argval) (ts : list action_tuple)
  : result (Namespace argval) :=
  match ts with
  | [] => Ok ns
  | (Help, _, _) :: _ => Raise (SystemExit 0)
  | (Append d, args, _) :: ts' =>
      take_actions (append d (_get_values args) ns) ts'
  end.

(** The main loop of [_parse_known_args].  Without positional
    arguments, every string that no option takes goes to [extras]. *)
Fixpoint consume (ns : Namespace argval) (extras : list string)
  (l : list (string * slot)) : result (Namespace argval * list string) :=
  match l with
  | [] => Ok (ns, extras)
  | (t, SlotO (Some a) o e) :: l' =>
      let next := match l' with (_, s) :: _ => Some s | [] => None end in
      let next_string :=
        match l' with (t', _) :: _ => t' | [] => EmptyString end in
      match consume_optional a o e next next_string with
      | Raise x => Raise x
      | Ok (tuples, took_next) =>
          match take_actions ns tuples with
          | Raise x => Raise x
          | Ok ns' =>
              match l' with
              | _ :: l'' => if took_next then consume ns' extras l''
                            else consume ns' extras l'
              | [] => consume ns' extras l'
              end
          end
      end
  | (t, _) :: l' => consume ns (extras ++ [t]) l'
  end.

Definition empty_namespace : Namespace argval :=
  {| ns_I := None; ns_L := None; ns_l := None |}.

Definition parse_known_args (args : list string)
  : result (Namespace argval * list string) :=
  match slots false args with
  | Raise e => Raise e
  | Ok l => consume empty_namespace [] l
  end.

End Argparse.

Definition get_r_flags (r_home flags : string)
  : M (Namespace argval * list string) :=
  if negb (existsb (String.eqb flags) _R_FLAGS) then raise AssertionError
  else
    lines <- _get_r_cmd_config r_home flags false;;
    res <- lift (Shlex.split (PyStr.join " " lines));;
    lift (Argparse.parse_known_args res).

(** ** Options to compile C extensions *)

(** The five lists of a [CExtensionOptions] object.  [V] is the type of
    the values that the parsed arguments carry. *)
Record CExtensionOptions (V : Type) := {
  extra_link_args : list string;
  extra_compile_args : list string;
  include_dirs : list V;
  libraries : list V;
  library_dirs : list V
}.
Arguments extra_link_args {V} _.
Arguments extra_compile_args {V} _.
Arguments include_dirs {V} _.
Arguments libraries {V} _.
Arguments library_dirs {V} _.

(** What a call of a method leaves behind: the object after the call
    (mutations made before an exception stay), the warnings emitted and
    the way the call ended. *)
Record effect (V : Type) := {
  self_after : CExtensionOptions V;
  warnings : list event;
  ended : result unit
}.
Arguments self_after {V} _.
Arguments warnings {V} _.
Arguments ended {V} _.

Section Accumulator.
Context {V : Type} `{EqDecision V}.

Definition __init__ : CExtensionOptions V :=
  {| extra_link_args := []; extra_compile_args := [];
     include_dirs := []; libraries := []; library_dirs := [] |}.

Definition extend_include_dirs (xs : list V) (self : CExtensionOptions V) :=
  {| extra_link_args := extra_link_args self;
     extra_compile_args := extra_compile_args self;
     include_dirs := include_dirs self ++ xs;
     libraries := libraries self;
     library_dirs := library_dirs self |}.

Definition extend_libraries (xs : list V) (self : CExtensionOptions V) :=
  {| extra_link_args := extra_link_args self;
     extra_compile_args := extra_compile_args self;
     include_dirs := include_dirs self;
     libraries := libraries self ++ xs;
     library_dirs := library_dirs self |}.

Definition extend_library_dirs (xs : list V) (self : CExtensionOptions V) :=
  {| extra_link_args := extra_link_args self;
     extra_compile_args := extra_compile_args self;
     include_dirs := include_dirs self;
     libraries := libraries self;
     library_dirs := library_dirs self ++ xs |}.

Definition extend_extra_compile_args (xs : list string)
  (self : CExtensionOptions V) :=
  {| extra_link_args := extra_link_args self;
     extra_compile_args := extra_compile_args self ++ xs;
     include_dirs := include_dirs self;
     libraries := libraries self;
     library_dirs := library_dirs self |}.

Definition extend_extra_link_args (xs : list string)
  (self : CExtensionOptions V) :=
  {| extra_link_args := extra_link_args self ++ xs;
     extra_compile_args := extra_compile_args self;
     include_dirs := include_dirs self;
     libraries := libraries self;
     library_dirs := library_dirs self |}.

Definition add_include (args : Namespace V) (unknown : list string)
  (self : CExtensionOptions V) : effect V :=
  match ns_I args with
  | None =>
      {| self_after := extend_extra_compile_args unknown self;
         warnings := [Warn "No include specified"];
         ended := Ok tt |}
  | Some dirs =>
      {| self_after :=
           extend_extra_compile_args unknown (extend_include_dirs dirs self);
         warnings := [];
         ended := Ok tt |}
  end.

(** [x not in ignore] *)
Definition not_in (ignore : list V) (x : V) : bool :=
  negb (existsb (fun y => bool_decide (x = y)) ignore).

Definition none_not_iterable : string :=
  "'NoneType' object is not iterable".

Definition add_lib (args : Namespace V) (unknown : list string)
  (ignore : list V) (self : CExtensionOptions V) : effect V :=
  match ns_L args with
  | None =>
      match ns_l args with
      | None =>
          {| self_after := extend_extra_link_args unknown self;
             warnings :=
               [Warn "No libraries as -l arguments to the compiler."];
             ended := Ok tt |}
      | Some names =>
          {| self_after :=
               extend_extra_link_args unknown
                 (extend_libraries (List.filter (not_in ignore) names)
                    self);
             warnings := [];
             ended := Ok tt |}
      end
  | Some dirs =>
      let self := extend_library_dirs dirs self in
      match ns_l args with
      | None =>
          (* self.libraries.extend(None) *)
          {| self_after := self;
             warnings := [];
             ended := Raise (TypeError none_not_iterable) |}
      | Some names =>
          {| self_after :=
               extend_extra_link_args unknown (extend_libraries names self);
             warnings := [];
             ended := Ok tt |}
      end
  end.

End Accumulator.

(** The default of the parameter [ignore] of [add_lib]. *)
Definition default_ignore : list string := ["R"].

(** ** Hosts used as concrete inputs *)

Definition nl : string := String "010" EmptyString.

Definition backslash : string := String "092" EmptyString.

(** A Linux host: [run] tells what each command does. *)
Definition linux_host (env : gmap string string)
  (run : list string -> proc_outcome) : World :=
  {| environ := env;
     platform := "linux";
     version := "3.8.10 (default) [GCC 9.4.0]";
     run := run;
     registry := fun _ _ => None;
     ntpath_join := fun a p => fold_left (fun x y => x +:+ backslash +:+ y) p a |}.

(** A Windows host with R's install path in the registry. *)
Definition windows_host (env : gmap string string)
  (run : list string -> proc_outcome) (install_path : option string)
  : World :=
  {| environ := env;
     platform := "win32";
     version := "3.8.10 (default) [MSC v.1928 64 bit (AMD64)]";
     run := run;
     registry := fun _ _ => install_path;
     ntpath_join := fun a p => fold_left (fun x y => x +:+ backslash +:+ y) p a |}.

(** Every command prints [out] and exits with [status]. *)
Definition always (status : Z) (out : string) : list string -> proc_outcome :=
  fun _ => Exits status out.

(** No command can be started. *)
Definition no_R : list string -> proc_outcome := fun _ => CannotLaunch.

(** ** Statements taken from the specification *)

(** "A launched process that exits with non-zero status propagates as a
    hard failure to the caller", for the two probes. *)
Definition nonzero_exit_is_hard_failure : Prop :=
  forall (w : World) (status : Z) (out : string),
    status <> 0 ->
    (run w ["R"; "RHOME"] = Exits status out ->
     exists e, snd (r_home_from_subprocess w) = Raise e)
    /\ (run w ["R"; "--version"] = Exits status out ->
        exists e, snd (r_version_from_subprocess w) = Raise e).

(** The classification of tokens in the words of the specification: a
    token that begins with [-I], [-L] or [-l] gives what follows the
    two characters to the list of that letter, and every other token is
    unknown. *)
Definition drop2 (t : string) : string :=
  match t with
  | String _ (String _ v) => v
  | _ => EmptyString
  end.

Definition values_of (flag : string) (tokens : list string) : list string :=
  omap (fun t => if PyStr.startswith t flag then Some (drop2 t) else None)
       tokens.

Definition is_flag (t : string) : bool :=
  PyStr.startswith t "-I" || PyStr.startswith t "-L"
  || PyStr.startswith t "-l".

(** An attribute of the parsed arguments: [None] when the letter never
    occurred. *)
Definition attr (vs : list string) : option (list argval) :=
  match vs with
  | [] => None
  | _ => Some (map ArgStr vs)
  end.

Definition namespace_of (vI vL vl : list string) : Namespace argval :=
  {| ns_I := attr vI; ns_L := attr vL; ns_l := attr vl |}.

Definition classify (tokens : list string) : Namespace argval * list string :=
  (namespace_of (values_of "-I" tokens) (values_of "-L" tokens)
     (values_of "-l" tokens),
   List.filter (fun t => negb (is_flag t)) tokens).

(** "For every RawConfigOutput, the flag parser joins the lines,
    shell-word-splits the result, and classifies [...], never raising
    on unrecognized tokens." *)
Definition flag_parser_classifies : Prop :=
  forall (lines tokens : list string),
    Shlex.split (PyStr.join " " lines) = Ok tokens ->
    Argparse.parse_known_args tokens = Ok (classify tokens).

(** The tokens on which the parser does classify that way.  A value
    attached to [-I], [-L] or [-l] is not empty, does not start with
    [=] and is not [--]; any other token is not [--], does not start
    with [-h] and, when it starts with [--], its text before [=] does
    not abbreviate [--help]. *)
Definition plain_value (v : string) : bool :=
  negb (String.eqb v EmptyString)
  && negb (PyStr.startswith v "=")
  && negb (String.eqb v "--").

Definition passes_through (t : string) : bool :=
  negb (String.eqb t "--")
  && negb (PyStr.startswith t "-h")
  && negb (PyStr.startswith t "--"
           && PyStr.startswith "--help" (Argparse.before_eq t)).

Definition well_formed (t : string) : bool :=
  if is_flag t then plain_value (drop2 t) else passes_through t.

(** The output of [R CMD config] used as the example of the
    specification: a warning line, then two include paths. *)
Definition example_output : string :=
  "WARNING: foo" +:+ nl +:+ "-I/usr/include -I/opt/inc".

Definition config_cmd (flags : string) : list string :=
  ["/usr/lib/R/bin/R"; "CMD"; "config"; flags].

Definition example_world : World := linux_host ∅ (always 0 example_output).

(** The entry of the pattern that a token gets when it is neither [--]
    nor ambiguous. *)
Definition slot_of (t : string) : Argparse.slot :=
  match Argparse._parse_optional t with
  | Argparse.Optional a o e => Argparse.SlotO a o e
  | _ => Argparse.SlotA
  end.

(** ** The rest of the module *)

(** The path that [get_r_exec] returns. *)
Definition r_exec_path (w : World) (r_home : string) : string :=
  if String.eqb (platform w) "win32"
  then if PyStr.contains "64 bit" (version w)
       then ntpath_join w r_home ["bin"; "x64"; "R"]
       else ntpath_join w r_home ["bin"; "R"]
  else posixpath_join r_home ["bin"; "R"].

(** The command line of [_get_r_cmd_config]. *)
Definition config_command (w : World) (r_home about : string) : list string :=
  [r_exec_path w r_home; "CMD"; "config"; about].

(** The separator that [posixpath.join] puts after [path]. *)
Definition sep_after (path : string) : string :=
  if String.eqb path EmptyString || endswith path "/"
  then EmptyString else "/".

(** How [assert_python_version] ends. *)
Inductive version_check :=
| VersionOk
| RuntimeError (msg : string).

(** [version_info] stands for [sys.version_info[0]] and
    [sys.version_info[1]]. *)
Definition assert_python_version (version_info : Z * Z) : version_check :=
  if negb (Z.leb 3 (fst version_info) && Z.leb 3 (snd version_info))
  then RuntimeError "Python >=3.3 is required to run rpy2"
  else VersionOk.

Definition ESC : string := String "027" EmptyString.

Definition _make_bold (text : string) : string :=
  (ESC +:+ "[1m") +:+ text +:+ (ESC +:+ "[0m").

(** *** [iter_info] *)

(** What the generator needs of the interpreter besides the [World]:
    whether [rpy2] was importable when the module was loaded, its
    version, [sys.version_info], and what importing
    [rpy2.rinterface_lib.openrlib] does (its effects, and whether it
    ends, raises ImportError or raises something else), with the text
    of the ImportError. *)
Record Interpreter := {
  has_rpy2 : bool;
  rpy2_version : string;
  version_info : Z * Z;
  import_openrlib : M unit;
  import_error : string
}.

(** A yielded value: a [str], [None], or the row ['  %s' % xs] made
    from a list [xs], kept as the list. *)
Inductive row :=
| RowStr (s : string)
| RowNone
| RowList (xs : list argval).

(** What the consumer of the generator observes, in order. *)
Inductive item :=
| Yield (r : row)
| Effect (e : event).

Definition G (A : Type) : Type := World -> list item * result A.

Definition gret {A} (a : A) : G A := fun _ => ([], Ok a).

Definition gbind {A B} (m : G A) (f : A -> G B) : G B :=
  fun w =>
    match m w with
    | (l1, Ok a) => let '(l2, r) := f a w in (l1 ++ l2, r)
    | (l1, Raise e) => (l1, Raise e)
    end.

Definition yield (r : row) : G unit := fun _ => ([Yield r], Ok tt).

(** A computation of the module run inside the generator. *)
Definition run_in {A} (m : M A) : G A :=
  fun w => let '(l, r) := m w in (map Effect l, r).

(** A call of a method of the options object inside the generator. *)
Definition call {V} (e : effect V) : G (CExtensionOptions V) :=
  fun _ =>
    (map Effect (warnings e),
     match ended e with
     | Ok _ => Ok (self_after e)
     | Raise x => Raise x
     end).

Notation "x <~ m ;; k" := (gbind m (fun x => k))
  (at level 100, m at next level, right associativity) : py_scope.
Notation "m ~;; k" := (gbind m (fun _ => k))
  (at level 100, right associativity) : py_scope.

(** ['%s' % o] for a [str] or [None]. *)
Definition fmt (o : option string) : string :=
  match o with
  | Some s => s
  | None => "None"
  end.

Definition not_a_path : string :=
  "expected str, bytes or os.PathLike object, not NoneType".

(** [get_r_flags(r_home, flags)] when [r_home] may be [None]: then
    [os.path.join] in [get_r_exec] raises TypeError. *)
Definition get_r_flags_of (r_home : option string) (flags : string)
  : M (Namespace argval * list string) :=
  match r_home with
  | Some h => get_r_flags h flags
  | None =>
      if negb (existsb (String.eqb flags) _R_FLAGS) then raise AssertionError
      else raise (TypeError not_a_path)
  end.

(** [try: import rpy2.rinterface_lib.openrlib  except ImportError] *)
Definition rlib_status_of (py : Interpreter) : G string :=
  if has_rpy2 py
  then fun w =>
         match import_openrlib py w with
         | (l, Ok _) => (map Effect l, Ok "OK")
         | (l, Raise ImportError) =>
             (map Effect l,
              Ok ("*** Error while loading: " +:+ import_error py +:+ " ***"))
         | (l, Raise e) => (map Effect l, Raise e)
         end
  else gret "*** rpy2 is not installed".

Definition iter_info (py : Interpreter) : G unit :=
  yield (RowStr (_make_bold "rpy2 version:")) ~;;
  (if has_rpy2 py
   then yield (RowStr (rpy2_version py))
   else yield (RowStr "rpy2 cannot be imported")) ~;;
  yield (RowStr (_make_bold "Python version:")) ~;;
  w <~ run_in ask;;
  yield (RowStr (version w)) ~;;
  (if negb (Z.eqb (fst (version_info py)) 3
            && Z.leb 5 (snd (version_info py)))
   then yield (RowStr "*** rpy2 is primarily designed for Python >= 3.5")
   else gret tt) ~;;
  yield (RowStr (_make_bold "Looking for R's HOME:")) ~;;
  r_home <~ run_in (environ_get "R_HOME");;
  yield (RowStr ("    Environment variable R_HOME: " +:+ fmt r_home)) ~;;
  r_home <~ run_in r_home_from_subprocess;;
  yield (RowStr ("    Calling `R RHOME`: " +:+ fmt r_home)) ~;;
  r_home <~ (if String.eqb (platform w) "win32"
             then r_home <~ run_in r_home_from_registry;;
                  yield (RowStr ("    InstallPath in the registry: "
                                 +:+ fmt r_home)) ~;;
                  gret r_home
             else gret r_home);;
  rlib_status <~ rlib_status_of py;;
  yield (RowStr (_make_bold "R version:")) ~;;
  r_version <~ run_in r_version_from_subprocess;;
  yield (RowStr ("    In the PATH: " +:+ fmt r_version)) ~;;
  yield (RowStr ("    Loading R library from rpy2: " +:+ rlib_status)) ~;;
  r_libs <~ run_in (environ_get "R_LIBS");;
  yield (RowStr (_make_bold
                   "Additional directories to load R packages from:")) ~;;
  yield (match r_libs with Some s => RowStr s | None => RowNone end) ~;;
  yield (RowStr (_make_bold "C extension compilation:")) ~;;
  let c_ext := __init__ in
  ldflags <~ run_in (get_r_flags_of r_home "--ldflags");;
  c_ext <~ call (add_lib (fst ldflags) (snd ldflags) [ArgStr "R"] c_ext);;
  cppflags <~ run_in (get_r_flags_of r_home "--cppflags");;
  c_ext <~ call (add_include (fst cppflags) (snd cppflags) c_ext);;
  yield (RowStr "  include:") ~;;
  yield (RowList (include_dirs c_ext)) ~;;
  yield (RowStr "  libraries:") ~;;
  yield (RowList (libraries c_ext)) ~;;
  yield (RowStr "  library_dirs:") ~;;
  yield (RowList (library_dirs c_ext)) ~;;
  yield (RowStr "  extra_link_args:") ~;;
  yield (RowList (map ArgStr (extra_link_args c_ext))).

(** *** Words for the statements below *)

(** A character that [shlex] treats as part of a word and nothing
    else: no blank, no quote, no backslash. *)
Definition word_char (c : ascii) : bool :=
  negb (Shlex.whitespace c) && negb (Shlex.quotes c) && negb (Shlex.escape c).

Fixpoint all_chars (p : ascii -> bool) (s : string) : bool :=
  match s with
  | EmptyString => true
  | String c s' => p c && all_chars p s'
  end.

(** No quote and no backslash in the text. *)
Definition unquoted (s : string) : bool :=
  all_chars (fun c => negb (Shlex.quotes c) && negb (Shlex.escape c)) s.

(** A non-empty word. *)
Definition word (s : string) : bool :=
  negb (String.eqb s EmptyString) && all_chars word_char s.

(** Whether a text starts, or ends, with a blank of [str.strip]. *)
Definition starts_blank (s : string) : bool :=
  match s with
  | String c _ => PyStr.is_space c
  | EmptyString => false
  end.


(** [get_r_flags] got as far as the tokens: the flags are accepted,
    the config command gave [lines] with the events [log], and the
    joined lines split into [tokens]. *)
Definition fetched (w : World) (r_home flags : string) (log : list event)
  (tokens : list string) : Prop :=
  In flags _R_FLAGS
  /\ exists lines,
      _get_r_cmd_config r_home flags false w = (log, Ok lines)
      /\ Shlex.split (PyStr.join " " lines) = Ok tokens.

(** The lines that are not empty. *)
Definition nonempty_lines (lines : list string) : list string :=
  List.filter (fun l => negb (String.eqb l EmptyString)) lines.

(** Hosts for the examples. *)
Definition cpython (v : Z * Z) : Interpreter :=
  {| has_rpy2 := false; rpy2_version := EmptyString; version_info := v;
     import_openrlib := ret tt; import_error := EmptyString |}.

(** * Properties *)

(** ** CFFI mode *)

Lemma get_cffi_mode_run (default : CFFI_MODE) (w : World) :
  get_cffi_mode default w =
    ([], Ok (first_mode (from_option id EmptyString
                           (environ w !! "RPY2_CFFI_MODE"))
               [API; ABI; BOTH] default)).
Proof. reflexivity. Qed.

(** C9: [get_cffi_mode], called with its default [ABI], returns the mode
    whose name equals the value of RPY2_CFFI_MODE up to the case of the
    letters, and returns [ABI] when the variable is unset, empty or
    names no mode. *)
Theorem get_cffi_mode_by_name (w : World) :
  (forall v m,
      environ w !! "RPY2_CFFI_MODE" = Some v ->
      PyStr.upper v = PyStr.upper (value m) ->
      get_cffi_mode ABI w = ([], Ok m))
  /\ (environ w !! "RPY2_CFFI_MODE" = None ->
      get_cffi_mode ABI w = ([], Ok ABI))
  /\ (environ w !! "RPY2_CFFI_MODE" = Some EmptyString ->
      get_cffi_mode ABI w = ([], Ok ABI))
  /\ (forall v,
      environ w !! "RPY2_CFFI_MODE" = Some v ->
      (forall m, PyStr.upper v <> PyStr.upper (value m)) ->
      get_cffi_mode ABI w = ([], Ok ABI)).
Proof.
  repeat split.
  - intros v m Hv Hm. rewrite get_cffi_mode_run, Hv. simpl.
    rewrite Hm. destruct m; reflexivity.
  - intros Hv. rewrite get_cffi_mode_run, Hv. reflexivity.
  - intros Hv. rewrite get_cffi_mode_run, Hv. reflexivity.
  - intros v Hv Hno. rewrite get_cffi_mode_run, Hv. simpl.
    destruct (String.eqb (PyStr.upper v) "API") eqn:E1.
    { apply String.eqb_eq in E1. destruct (Hno API). exact E1. }
    destruct (String.eqb (PyStr.upper v) "ABI") eqn:E2; [reflexivity|].
    destruct (String.eqb (PyStr.upper v) "BOTH") eqn:E3; [|reflexivity].
    apply String.eqb_eq in E3. destruct (Hno BOTH). exact E3.
Qed.

Lemma get_cffi_mode_by_name_witness :
  get_cffi_mode ABI (linux_host {[ "RPY2_CFFI_MODE" := "Both" ]} no_R)
    = ([], Ok BOTH)
  /\ get_cffi_mode ABI (linux_host ∅ no_R) = ([], Ok ABI)
  /\ get_cffi_mode ABI (linux_host {[ "RPY2_CFFI_MODE" := "" ]} no_R)
    = ([], Ok ABI)
  /\ get_cffi_mode ABI (linux_host {[ "RPY2_CFFI_MODE" := "cffi" ]} no_R)
    = ([], Ok ABI).
Proof.
  split; [|split; [|split]].
  - apply (proj1 (get_cffi_mode_by_name _) "Both" BOTH); reflexivity.
  - apply (proj1 (proj2 (get_cffi_mode_by_name _))); reflexivity.
  - apply (proj1 (proj2 (proj2 (get_cffi_mode_by_name _)))); reflexivity.
  - apply (proj2 (proj2 (proj2 (get_cffi_mode_by_name _))) "cffi");
      [reflexivity | intros []; vm_compute; discriminate].
Defined.

(** ** The probes *)


(** What the home probe does, by the way the child process ends. *)
Lemma r_home_from_subprocess_run (w : World) :
  r_home_from_subprocess w =
    ([Exec ["R"; "RHOME"]],
     match run w ["R"; "RHOME"] with
     | CannotLaunch => Ok None
     | Exits status out =>
         if Z.eqb status 0
         then match first_line
                      (PyStr.split (PyStr.universal_newlines out) (linesep w))
              with
              | Ok line => Ok (Some line)
              | Raise e => Raise e
              end
         else Ok None
     end).
Proof.
  unfold r_home_from_subprocess, try_except, check_output_text, check_output,
    bind, ret, ask, lift.
  destruct (run w ["R"; "RHOME"]) as [|status out]; [reflexivity|].
  destruct (Z.eqb status 0); [|reflexivity].
  destruct (first_line _); reflexivity.
Qed.

Lemma r_version_from_subprocess_run (w : World) :
  r_version_from_subprocess w =
    ([Exec ["R"; "--version"]],
     match run w ["R"; "--version"] with
     | CannotLaunch => Ok None
     | Exits status out =>
         if Z.eqb status 0
         then match first_line
                      (PyStr.split (PyStr.decode_ascii_ignore out) (linesep w))
              with
              | Ok line => Ok (Some line)
              | Raise e => Raise e
              end
         else Ok None
     end).
Proof.
  unfold r_version_from_subprocess, try_except, check_output,
    bind, ret, ask, lift.
  destruct (run w ["R"; "--version"]) as [|status out]; [reflexivity|].
  destruct (Z.eqb status 0); [|reflexivity].
  destruct (first_line _); reflexivity.
Qed.


(** The line chosen after a warning: the second one, as it stands. *)
Lemma first_line_warning (l0 l1 : string) (rest : list string) :
  PyStr.startswith l0 "WARNING" = true ->
  first_line (l0 :: l1 :: rest) = Ok l1.
Proof. intros H. unfold first_line. now rewrite H. Qed.

(** A warning with nothing after it. *)
Lemma first_line_warning_only (l0 : string) :
  PyStr.startswith l0 "WARNING" = true ->
  first_line [l0] = Raise IndexError.
Proof. intros H. unfold first_line. now rewrite H. Qed.

(** C3, as stated, fails: a child process that exits with status 1 makes
    both probes return [None]. *)
Lemma nonzero_exit_demoted_to_absence :
  r_home_from_subprocess (linux_host ∅ (always 1 EmptyString))
    = ([Exec ["R"; "RHOME"]], Ok None)
  /\ r_version_from_subprocess (linux_host ∅ (always 1 EmptyString))
    = ([Exec ["R"; "--version"]], Ok None)
  /\ ~ nonzero_exit_is_hard_failure.
Proof.
  split; [reflexivity|]. split; [reflexivity|].
  intros H.
  destruct (H (linux_host ∅ (always 1 EmptyString)) 1 EmptyString) as [Hh _];
    [discriminate|].
  destruct (Hh eq_refl) as [e He]. vm_compute in He. discriminate.
Qed.

(** C3, amended: for the two probes a child process that cannot be
    started and one that exits with a non-zero status both give [None];
    neither reaches the caller as an exception. *)
Theorem probe_failure_is_absence (w : World) :
  ((run w ["R"; "RHOME"] = CannotLaunch
    \/ exists status out,
        status <> 0 /\ run w ["R"; "RHOME"] = Exits status out) ->
   r_home_from_subprocess w = ([Exec ["R"; "RHOME"]], Ok None))
  /\ ((run w ["R"; "--version"] = CannotLaunch
       \/ exists status out,
           status <> 0 /\ run w ["R"; "--version"] = Exits status out) ->
      r_version_from_subprocess w = ([Exec ["R"; "--version"]], Ok None)).
Proof.
  split.
  - intros [Hr | (status & out & Hs & Hr)];
      rewrite r_home_from_subprocess_run, Hr; [reflexivity|].
    apply Z.eqb_neq in Hs. now rewrite Hs.
  - intros [Hr | (status & out & Hs & Hr)];
      rewrite r_version_from_subprocess_run, Hr; [reflexivity|].
    apply Z.eqb_neq in Hs. now rewrite Hs.
Qed.

Lemma probe_failure_is_absence_witness :
  r_home_from_subprocess (linux_host ∅ no_R) = ([Exec ["R"; "RHOME"]], Ok None)
  /\ r_version_from_subprocess (linux_host ∅ (always 2 "R: fatal"))
     = ([Exec ["R"; "--version"]], Ok None).
Proof.
  split.
  - apply (proj1 (probe_failure_is_absence _)). left. reflexivity.
  - apply (proj2 (probe_failure_is_absence _)). right.
    exists 2, "R: fatal". split; [discriminate | reflexivity].
Defined.

(** C7: after a line that starts with WARNING both probes return the
    next line with its blanks, where the claim has it trimmed. *)
Theorem probe_keeps_blanks_after_warning :
  let out := "WARNING: ignoring environment value of R_HOME" +:+ nl
             +:+ "  /usr/lib/R " +:+ nl in
  r_home_from_subprocess (linux_host ∅ (always 0 out))
    = ([Exec ["R"; "RHOME"]], Ok (Some "  /usr/lib/R "))
  /\ r_version_from_subprocess (linux_host ∅ (always 0 out))
     = ([Exec ["R"; "--version"]], Ok (Some "  /usr/lib/R "))
  /\ PyStr.strip "  /usr/lib/R " = "/usr/lib/R"
  /\ r_home_from_subprocess (linux_host ∅ (always 0 ("  /usr/lib/R " +:+ nl)))
     = ([Exec ["R"; "RHOME"]], Ok (Some "/usr/lib/R")).
Proof. repeat split. Qed.

(** ** R's home *)

(** C1: a non-empty R_HOME is returned as it is and nothing else is
    consulted (the log is empty); without it the value of [R RHOME] is
    returned when it is not empty, and only otherwise, and only on
    win32, the registry is asked. *)
Theorem get_r_home_priority (w : World) :
  (forall s,
      environ w !! "R_HOME" = Some s -> s <> EmptyString ->
      get_r_home w = ([], Ok (Some s)))
  /\ (forall v,
      PyStr.truthy (environ w !! "R_HOME") = false ->
      r_home_from_subprocess w = ([Exec ["R"; "RHOME"]], Ok v) ->
      PyStr.truthy v = true ->
      get_r_home w = ([Exec ["R"; "RHOME"]], Ok v))
  /\ (forall v,
      PyStr.truthy (environ w !! "R_HOME") = false ->
      r_home_from_subprocess w = ([Exec ["R"; "RHOME"]], Ok v) ->
      PyStr.truthy v = false ->
      platform w = "win32" ->
      get_r_home w =
        ([Exec ["R"; "RHOME"]; RegistryQuery registry_key "InstallPath"],
         Ok (registry w registry_key "InstallPath")))
  /\ (forall v,
      PyStr.truthy (environ w !! "R_HOME") = false ->
      r_home_from_subprocess w = ([Exec ["R"; "RHOME"]], Ok v) ->
      PyStr.truthy v = false ->
      platform w <> "win32" ->
      get_r_home w = ([Exec ["R"; "RHOME"]], Ok v)).
Proof.
  repeat split.
  - intros s Hs Hne. unfold get_r_home, bind, environ_get, ask, ret.
    rewrite Hs. destruct s; [congruence|]. reflexivity.
  - intros v He Hp Hv. unfold get_r_home, bind, environ_get, ask, ret.
    rewrite He. simpl. rewrite Hp, Hv. reflexivity.
  - intros v He Hp Hv Hw. unfold get_r_home, bind, environ_get, ask, ret.
    rewrite He. simpl. rewrite Hp, Hv. simpl.
    unfold r_home_from_registry, bind, ask, emit, ret.
    rewrite Hw. simpl. rewrite Hw. reflexivity.
  - intros v He Hp Hv Hw. unfold get_r_home, bind, environ_get, ask, ret.
    rewrite He. simpl. rewrite Hp, Hv. simpl.
    apply String.eqb_neq in Hw. rewrite Hw. reflexivity.
Qed.

Lemma get_r_home_priority_witness :
  get_r_home (windows_host {[ "R_HOME" := "/opt/R" ]}
                (always 0 "C:\R") (Some "D:\R"))
    = ([], Ok (Some "/opt/R"))
  /\ get_r_home (windows_host {[ "R_HOME" := "" ]}
                   (always 0 "C:\R") (Some "D:\R"))
     = ([Exec ["R"; "RHOME"]], Ok (Some "C:\R"))
  /\ get_r_home (windows_host ∅ no_R (Some "D:\R"))
     = ([Exec ["R"; "RHOME"]; RegistryQuery registry_key "InstallPath"],
        Ok (Some "D:\R"))
  /\ get_r_home (linux_host ∅ no_R) = ([Exec ["R"; "RHOME"]], Ok None).
Proof.
  split; [|split; [|split]].
  - apply (proj1 (get_r_home_priority _) "/opt/R");
      [reflexivity | discriminate].
  - apply (proj1 (proj2 (get_r_home_priority _))); reflexivity.
  - exact (proj1 (proj2 (proj2 (get_r_home_priority
                                   (windows_host ∅ no_R (Some "D:\R")))))
             None eq_refl eq_refl eq_refl eq_refl).
  - apply (proj2 (proj2 (proj2 (get_r_home_priority _))) None);
      [reflexivity | reflexivity | reflexivity | discriminate].
Defined.

(** ** The shared library *)

Lemma get_rlib_path_unsupported (w : World) (r_home system : string) :
  system <> "Linux" -> system <> "Darwin" ->
  get_rlib_path r_home system w = ([], Raise (ValueError unsupported_system_msg)).
Proof.
  intros HL HD. unfold get_rlib_path.
  apply String.eqb_neq in HL, HD. now rewrite HL, HD.
Qed.

Lemma get_rlib_path_supported (w : World) (r_home : string) :
  platform w <> "win32" ->
  get_rlib_path r_home "Linux" w
    = ([], Ok (posixpath_join r_home ["lib"; "libR.so"]))
  /\ get_rlib_path r_home "Darwin" w
     = ([], Ok (posixpath_join r_home ["lib"; "libR.dylib"])).
Proof.
  intros Hw. apply String.eqb_neq in Hw.
  unfold get_rlib_path, os_path_join, bind, ask, ret. simpl.
  now rewrite Hw.
Qed.

(** C5: for the system "Windows" the error is raised, but its text is the
    literal with [%s] left in place and does not name the system. *)
Theorem get_rlib_path_message_keeps_placeholder (w : World) (r_home : string) :
  get_rlib_path r_home "Windows" w
    = ([], Raise (ValueError unsupported_system_msg))
  /\ PyStr.contains "Windows" unsupported_system_msg = false
  /\ PyStr.contains "%s" unsupported_system_msg = true
  /\ get_rlib_path "/usr/lib/R" "Linux" (linux_host ∅ no_R)
     = ([], Ok "/usr/lib/R/lib/libR.so")
  /\ get_rlib_path "/usr/lib/R" "Darwin" (linux_host ∅ no_R)
     = ([], Ok "/usr/lib/R/lib/libR.dylib").
Proof. repeat split. Qed.

(** ** Output of [R CMD config] *)

(** The parameter [allow_empty] has no part in the result. *)
Lemma _get_r_cmd_config_allow_empty (r_home about : string) (w : World) :
  _get_r_cmd_config r_home about false w
    = _get_r_cmd_config r_home about true w.
Proof. reflexivity. Qed.

(** C4: an output made of one warning line leaves no line after the
    warning is dropped; with [allow_empty=False] the call returns the
    empty list all the same, where the claim has it fail. *)
Theorem empty_config_output_is_returned :
  let w := linux_host ∅ (always 0 "WARNING: foo") in
  _get_r_cmd_config "/usr/lib/R" "--cppflags" false w
    = ([Stdout (config_cmd "--cppflags"); Exec (config_cmd "--cppflags");
        Warn "R emitting a warning: WARNING: foo"],
       Ok [])
  /\ _get_r_cmd_config "/usr/lib/R" "LAPACK_LIBS" true w
     = ([Stdout (config_cmd "LAPACK_LIBS"); Exec (config_cmd "LAPACK_LIBS");
         Warn "R emitting a warning: WARNING: foo"],
        Ok []).
Proof. split; reflexivity. Qed.

(** ** Accumulating options *)

(** C2: without [-L] the names in [ignore] are left out of [libraries];
    with [-L] every name is kept, whatever [ignore] holds.  Both calls
    append the unknown tokens to [extra_link_args]. *)
Theorem add_lib_asymmetric (self : CExtensionOptions string)
  (unknown : list string) (incl : option (list string)) :
  (let r := add_lib {| ns_I := incl; ns_L := None;
                       ns_l := Some ["R"; "pthread"] |}
              unknown ["R"] self in
   libraries (self_after r) = libraries self ++ ["pthread"]
   /\ library_dirs (self_after r) = library_dirs self
   /\ extra_link_args (self_after r) = extra_link_args self ++ unknown
   /\ ended r = Ok tt)
  /\ (forall ignore : list string,
      let r := add_lib {| ns_I := incl; ns_L := Some ["/lib"];
                          ns_l := Some ["R"; "pthread"] |}
                 unknown ignore self in
      library_dirs (self_after r) = library_dirs self ++ ["/lib"]
      /\ libraries (self_after r) = libraries self ++ ["R"; "pthread"]
      /\ extra_link_args (self_after r) = extra_link_args self ++ unknown
      /\ ended r = Ok tt).
Proof. repeat split. Qed.

(** C8: two calls of [add_include] leave [include_dirs] extended by the
    first list and then the second, as given (so in particular for
    disjoint lists), and [extra_compile_args] by the unknown tokens of
    each call; a call without [-I] values warns, succeeds and leaves
    [include_dirs] as it was. *)
Theorem add_include_accumulates {V : Type} (self : CExtensionOptions V)
  (dirs1 dirs2 : list V) (unknown1 unknown2 : list string)
  (L1 l1 L2 l2 : option (list V)) :
  (let r1 := add_include {| ns_I := Some dirs1; ns_L := L1; ns_l := l1 |}
               unknown1 self in
   let r2 := add_include {| ns_I := Some dirs2; ns_L := L2; ns_l := l2 |}
               unknown2 (self_after r1) in
   include_dirs (self_after r2) = include_dirs self ++ dirs1 ++ dirs2
   /\ extra_compile_args (self_after r2)
      = extra_compile_args self ++ unknown1 ++ unknown2
   /\ warnings r1 = [] /\ warnings r2 = []
   /\ ended r1 = Ok tt /\ ended r2 = Ok tt)
  /\ (let r := add_include {| ns_I := None; ns_L := L1; ns_l := l1 |}
                 unknown1 self in
      include_dirs (self_after r) = include_dirs self
      /\ extra_compile_args (self_after r)
         = extra_compile_args self ++ unknown1
      /\ warnings r = [Warn "No include specified"]
      /\ ended r = Ok tt).
Proof.
  simpl. repeat split; now rewrite <- app_assoc.
Qed.

(** The lists never shrink: what was there stays in front. *)
Lemma add_include_monotonic {V : Type} (self : CExtensionOptions V)
  (args : Namespace V) (unknown : list string) :
  let r := add_include args unknown self in
  include_dirs self `prefix_of` include_dirs (self_after r)
  /\ extra_compile_args self `prefix_of` extra_compile_args (self_after r)
  /\ libraries (self_after r) = libraries self
  /\ library_dirs (self_after r) = library_dirs self
  /\ extra_link_args (self_after r) = extra_link_args self.
Proof.
  unfold add_include. destruct (ns_I args); simpl;
    repeat split; try apply prefix_app_r; reflexivity.
Qed.

(** C10: with [-L] values and no [-l] value [add_lib] ends in a
    TypeError, after the directories were added; it succeeds exactly
    when that case is excluded. *)
Theorem add_lib_dirs_without_names `{EqDecision V}
  (self : CExtensionOptions V) (args : Namespace V) (unknown : list string)
  (ignore dirs : list V) :
  ns_L args = Some dirs -> ns_l args = None ->
  let r := add_lib args unknown ignore self in
  ended r = Raise (TypeError none_not_iterable)
  /\ library_dirs (self_after r) = library_dirs self ++ dirs
  /\ libraries (self_after r) = libraries self
  /\ extra_link_args (self_after r) = extra_link_args self
  /\ (forall args' : Namespace V,
        ended (add_lib args' unknown ignore self) = Ok tt
        <-> ~ (ns_L args' <> None /\ ns_l args' = None)).
Proof.
  intros HL Hl. unfold add_lib. rewrite HL, Hl. simpl.
  repeat split; try reflexivity.
  - intros Hok [HL' Hl']. destruct (ns_L args'); [|congruence].
    rewrite Hl' in Hok. discriminate.
  - intros Hn. destruct (ns_L args') as [d|], (ns_l args') as [n|];
      try reflexivity.
    destruct Hn. split; congruence.
Qed.

Lemma add_lib_dirs_without_names_witness :
  Argparse.parse_known_args ["-L/usr/lib/R/lib"]
    = Ok ({| ns_I := None; ns_L := Some [ArgStr "/usr/lib/R/lib"];
             ns_l := None |}, [])
  /\ ended (add_lib {| ns_I := None; ns_L := Some [ArgStr "/usr/lib/R/lib"];
                       ns_l := None |} [] [ArgStr "R"] __init__)
     = Raise (TypeError none_not_iterable).
Proof.
  split; [reflexivity|].
  apply (add_lib_dirs_without_names __init__
           {| ns_I := None; ns_L := Some [ArgStr "/usr/lib/R/lib"];
              ns_l := None |} [] [ArgStr "R"] [ArgStr "/usr/lib/R/lib"]);
    reflexivity.
Defined.

(** ** The flag parser *)

#[local] Arguments Ascii.eqb : simpl never.

(** Comparisons of two given characters are evaluated, those with an
    unknown character are rewritten with what the context knows. *)
Ltac eval_eqb :=
  repeat match goal with
  | |- context [Ascii.eqb ?a ?b] =>
      lazymatch a with Ascii _ _ _ _ _ _ _ _ => idtac end;
      lazymatch b with Ascii _ _ _ _ _ _ _ _ => idtac end;
      let v := eval vm_compute in (Ascii.eqb a b) in
      change (Ascii.eqb a b) with v
  end.

Ltac use_eqb :=
  repeat match goal with
  | H : Ascii.eqb _ _ = _ |- _ => rewrite H
  end.

Ltac crunch := repeat (progress (cbn; eval_eqb; use_eqb)).

Ltac either_way :=
  repeat match goal with
  | |- context [if ?b then _ else _] => destruct b
  end;
  first [left; reflexivity | right; reflexivity].

Ltac flag_token Hv :=
  let c2 := fresh "c" in
  let v' := fresh "v" in
  let E := fresh "E" in
  match type of Hv with
  | plain_value ?v = true =>
      destruct v as [|c2 v']; [vm_compute in Hv; discriminate|];
      unfold plain_value in Hv; simpl in Hv;
      destruct (Ascii.eqb c2 "=") eqn:E; [simpl in Hv; discriminate|];
      unfold Argparse._parse_optional; crunch;
      destruct (Argparse.split_eq v') as [[? ?]|]; crunch; reflexivity
  end.

Lemma parse_optional_I (v : string) :
  plain_value v = true ->
  Argparse._parse_optional (String "-" (String "I" v))
  = Argparse.Optional (Some (Argparse.Append Argparse.DestI)) "-I" (Some v).
Proof. intros Hv. flag_token Hv. Qed.

Lemma parse_optional_L (v : string) :
  plain_value v = true ->
  Argparse._parse_optional (String "-" (String "L" v))
  = Argparse.Optional (Some (Argparse.Append Argparse.DestL)) "-L" (Some v).
Proof. intros Hv. flag_token Hv. Qed.

Lemma parse_optional_l (v : string) :
  plain_value v = true ->
  Argparse._parse_optional (String "-" (String "l" v))
  = Argparse.Optional (Some (Argparse.Append Argparse.Destl)) "-l" (Some v).
Proof. intros Hv. flag_token Hv. Qed.

Lemma eqb_sym_false (a b : ascii) :
  Ascii.eqb a b = false -> Ascii.eqb b a = false.
Proof. intros H. now rewrite Ascii.eqb_sym. Qed.

Lemma startswith_refl (s : string) : PyStr.startswith s s = true.
Proof.
  induction s as [|c s IH]; simpl; [reflexivity|].
  now rewrite Ascii.eqb_refl, IH.
Qed.

Lemma eqb_startswith (a b : string) :
  PyStr.startswith b a = false -> String.eqb a b = false.
Proof.
  intros H. destruct (String.eqb a b) eqn:E; [|reflexivity].
  apply String.eqb_eq in E. subst. now rewrite startswith_refl in H.
Qed.

(** Strings that start with two dashes. *)
Lemma lookup_long (r : string) :
  Argparse.lookup (String "-" (String "-" r)) Argparse._option_string_actions
  = if String.eqb r "help" then Some Argparse.Help else None.
Proof. crunch. reflexivity. Qed.

Lemma before_eq_long (r : string) :
  Argparse.before_eq (String "-" (String "-" r))
  = String "-" (String "-" (Argparse.before_eq r)).
Proof.
  unfold Argparse.before_eq. crunch.
  destruct (Argparse.split_eq r) as [[a b]|]; reflexivity.
Qed.

Lemma after_eq_long (r : string) :
  Argparse.after_eq (String "-" (String "-" r)) = Argparse.after_eq r.
Proof.
  unfold Argparse.after_eq. crunch.
  destruct (Argparse.split_eq r) as [[a b]|]; reflexivity.
Qed.

Lemma split_eq_parts (s : string) :
  Argparse.split_eq s
  = match Argparse.after_eq s with
    | Some e => Some (Argparse.before_eq s, e)
    | None => None
    end.
Proof.
  unfold Argparse.after_eq, Argparse.before_eq.
  destruct (Argparse.split_eq s) as [[a b]|]; reflexivity.
Qed.

Lemma startswith_long (x : string) :
  PyStr.startswith "--help" (String "-" (String "-" x))
  = PyStr.startswith "help" x.
Proof. crunch. reflexivity. Qed.

Lemma get_option_tuples_long (r : string) :
  Argparse._get_option_tuples (String "-" (String "-" r))
  = if PyStr.startswith "help" (Argparse.before_eq r)
    then [(Argparse.Help, "--help", Argparse.after_eq r)] else [].
Proof.
  unfold Argparse._get_option_tuples.
  rewrite before_eq_long, after_eq_long. crunch.
  destruct (PyStr.startswith "help" _); reflexivity.
Qed.

(** A token that passes through is no option of the parser. *)
Lemma parse_optional_passes (t : string) :
  is_flag t = false -> passes_through t = true ->
  Argparse._parse_optional t = Argparse.Positional
  \/ Argparse._parse_optional t = Argparse.Optional None t None.
Proof.
  intros Hf Hp.
  destruct t as [|c0 tl]; [left; reflexivity|].
  unfold Argparse._parse_optional.
  destruct (Ascii.eqb c0 "-") eqn:E0; [|left; reflexivity].
  apply Ascii.eqb_eq in E0. subst c0.
  destruct tl as [|c1 rest]; [left; reflexivity|].
  destruct (Ascii.eqb c1 "-") eqn:Ed.
  - apply Ascii.eqb_eq in Ed. subst c1. clear Hf.
    assert (Hh : PyStr.startswith "help" (Argparse.before_eq rest) = false).
    { unfold passes_through in Hp.
      rewrite before_eq_long, startswith_long in Hp.
      apply andb_prop in Hp as [_ Hp]. revert Hp. crunch.
      intros Hp. now apply negb_true_iff in Hp. }
    assert (Hr : String.eqb rest "help" = false).
    { destruct (String.eqb rest "help") eqn:Er; [|reflexivity].
      apply String.eqb_eq in Er. subst rest. vm_compute in Hh. discriminate. }
    rewrite lookup_long, split_eq_parts, before_eq_long, after_eq_long,
      get_option_tuples_long, Hh, Hr.
    destruct (Argparse.after_eq rest) as [e|];
      [rewrite lookup_long, (eqb_startswith _ _ Hh)|]; crunch; either_way.
  - assert (Hc : Ascii.eqb c1 "I" = false /\ Ascii.eqb c1 "L" = false
                 /\ Ascii.eqb c1 "l" = false /\ Ascii.eqb c1 "h" = false).
    { unfold is_flag in Hf. unfold passes_through in Hp.
      revert Hf Hp. crunch.
      destruct (Ascii.eqb c1 "I"); [discriminate|].
      destruct (Ascii.eqb c1 "L"); [discriminate|].
      destruct (Ascii.eqb c1 "l"); [discriminate|].
      destruct (Ascii.eqb c1 "h"); [cbn; discriminate|].
      intros _ _. repeat split. }
    destruct Hc as (EI & EL & El & Eh).
    assert (EI' := eqb_sym_false _ _ EI).
    assert (EL' := eqb_sym_false _ _ EL).
    assert (El' := eqb_sym_false _ _ El).
    assert (Eh' := eqb_sym_false _ _ Eh).
    assert (Ed' := eqb_sym_false _ _ Ed).
    unfold Argparse._get_option_tuples.
    crunch.
    destruct (Ascii.eqb c1 "=") eqn:Ee; crunch.
    + either_way.
    + destruct (Argparse.split_eq rest) as [[a b]|]; crunch; either_way.
Qed.

(** The shapes of a well-formed token. *)
Lemma token_cases (t : string) :
  well_formed t = true ->
  (exists v, t = String "-" (String "I" v) /\ plain_value v = true)
  \/ (exists v, t = String "-" (String "L" v) /\ plain_value v = true)
  \/ (exists v, t = String "-" (String "l" v) /\ plain_value v = true)
  \/ (is_flag t = false /\ passes_through t = true).
Proof.
  unfold well_formed. destruct (is_flag t) eqn:Hf; [|tauto].
  intros Hv. destruct t as [|c0 [|c1 v]]; try discriminate.
  change (drop2 (String c0 (String c1 v))) with v in Hv.
  assert (Hc : c0 = "-"%char /\ (c1 = "I" \/ c1 = "L" \/ c1 = "l")%char).
  { revert Hf. unfold is_flag. crunch.
    destruct (Ascii.eqb c0 "-") eqn:E0; [|discriminate].
    apply Ascii.eqb_eq in E0. split; [assumption|].
    destruct (Ascii.eqb c1 "I") eqn:EI; [apply Ascii.eqb_eq in EI; tauto|].
    destruct (Ascii.eqb c1 "L") eqn:EL; [apply Ascii.eqb_eq in EL; tauto|].
    destruct (Ascii.eqb c1 "l") eqn:El; [apply Ascii.eqb_eq in El; tauto|].
    revert Hf. crunch. discriminate. }
  destruct Hc as [-> [-> | [-> | ->]]]; eauto 6.
Qed.

Lemma plain_value_not_dashes (v : string) :
  plain_value v = true -> String.eqb v "--" = false.
Proof.
  unfold plain_value. intros H. apply andb_prop in H as [_ H].
  now apply negb_true_iff in H.
Qed.

Lemma passes_through_not_dashes (t : string) :
  passes_through t = true -> String.eqb t "--" = false.
Proof.
  unfold passes_through. intros H.
  apply andb_prop in H as [H _]. apply andb_prop in H as [H _].
  now apply negb_true_iff in H.
Qed.

(** The pattern of a list of well-formed tokens is made token by token:
    none is [--] and none is ambiguous. *)
Lemma slots_well_formed (tokens : list string) :
  forallb well_formed tokens = true ->
  Argparse.slots false tokens = Ok (map (fun t => (t, slot_of t)) tokens).
Proof.
  induction tokens as [|t ts IH]; [reflexivity|].
  intros Hwf. cbn [forallb] in Hwf. apply andb_prop in Hwf as [Ht Hts].
  specialize (IH Hts). cbn [Argparse.slots map]. rewrite IH. unfold slot_of.
  destruct (token_cases t Ht)
    as [(v & -> & Hv) | [(v & -> & Hv) | [(v & -> & Hv) | (Hf & Hp)]]].
  - rewrite (parse_optional_I v Hv). reflexivity.
  - rewrite (parse_optional_L v Hv). reflexivity.
  - rewrite (parse_optional_l v Hv). reflexivity.
  - rewrite (passes_through_not_dashes t Hp).
    destruct (parse_optional_passes t Hf Hp) as [-> | ->]; reflexivity.
Qed.

Lemma with_explicit_append (d : Argparse.dest) (o e : string)
  (acc : list Argparse.action_tuple) (next : option Argparse.slot)
  (next_string : string) :
  Argparse.with_explicit (Argparse.Append d) o e acc next next_string
  = Ok (acc ++ [(Argparse.Append d, [e], o)], false).
Proof. destruct e; reflexivity. Qed.

Lemma consume_attached (ns : Namespace argval) (extras : list string)
  (t o v : string) (d : Argparse.dest) (l : list (string * Argparse.slot)) :
  String.eqb v "--" = false ->
  Argparse.consume ns extras
    ((t, Argparse.SlotO (Some (Argparse.Append d)) o (Some v)) :: l)
  = Argparse.consume (Argparse.append d (ArgStr v) ns) extras l.
Proof.
  intros Hv.
  cbn [Argparse.consume Argparse.consume_optional].
  rewrite with_explicit_append.
  cbn [Argparse.take_actions Argparse._get_values app].
  rewrite Hv. destruct l; reflexivity.
Qed.

Lemma attr_snoc (vs : list string) (v : string) :
  Some (from_option id [] (attr vs) ++ [ArgStr v]) = attr (vs ++ [v]).
Proof.
  destruct vs as [|x vs]; [reflexivity|].
  cbn. now rewrite map_app.
Qed.

Lemma append_namespace_of (d : Argparse.dest) (v : string)
  (vI vL vl : list string) :
  Argparse.append d (ArgStr v) (namespace_of vI vL vl)
  = match d with
    | Argparse.DestI => namespace_of (vI ++ [v]) vL vl
    | Argparse.DestL => namespace_of vI (vL ++ [v]) vl
    | Argparse.Destl => namespace_of vI vL (vl ++ [v])
    end.
Proof.
  destruct d; unfold Argparse.append, namespace_of; cbn [ns_I ns_L ns_l];
    now rewrite attr_snoc.
Qed.

(** The main loop on well-formed tokens. *)
Lemma consume_well_formed (tokens : list string) :
  forallb well_formed tokens = true ->
  forall (vI vL vl : list string) (extras : list string),
    Argparse.consume (namespace_of vI vL vl) extras
      (map (fun t => (t, slot_of t)) tokens)
    = Ok (namespace_of (vI ++ values_of "-I" tokens)
            (vL ++ values_of "-L" tokens) (vl ++ values_of "-l" tokens),
          extras ++ List.filter (fun t => negb (is_flag t)) tokens).
Proof.
  induction tokens as [|t ts IH]; intros Hwf vI vL vl extras.
  - cbn. now rewrite !app_nil_r.
  - cbn [forallb] in Hwf. apply andb_prop in Hwf as [Ht Hts].
    specialize (IH Hts). cbn [map]. unfold slot_of at 1.
    destruct (token_cases t Ht)
      as [(v & -> & Hv) | [(v & -> & Hv) | [(v & -> & Hv) | (Hf & Hp)]]].
    + rewrite (parse_optional_I v Hv),
        (consume_attached _ _ _ _ _ _ _ (plain_value_not_dashes v Hv)),
        append_namespace_of, IH.
      rewrite <- app_assoc. reflexivity.
    + rewrite (parse_optional_L v Hv),
        (consume_attached _ _ _ _ _ _ _ (plain_value_not_dashes v Hv)),
        append_namespace_of, IH.
      rewrite <- app_assoc. reflexivity.
    + rewrite (parse_optional_l v Hv),
        (consume_attached _ _ _ _ _ _ _ (plain_value_not_dashes v Hv)),
        append_namespace_of, IH.
      rewrite <- app_assoc. reflexivity.
    + assert (Hstep : Argparse.consume (namespace_of vI vL vl) extras
                ((t, match Argparse._parse_optional t with
                     | Argparse.Optional a o e => Argparse.SlotO a o e
                     | _ => Argparse.SlotA
                     end) :: map (fun t => (t, slot_of t)) ts)
              = Argparse.consume (namespace_of vI vL vl) (extras ++ [t])
                  (map (fun t => (t, slot_of t)) ts)).
      { destruct (parse_optional_passes t Hf Hp) as [-> | ->]; reflexivity. }
      rewrite Hstep, IH. cbn [List.filter]. rewrite Hf. cbn [negb].
      rewrite <- app_assoc.
      unfold is_flag in Hf.
      apply orb_false_elim in Hf as [Hf Hl].
      apply orb_false_elim in Hf as [HI HL].
      unfold values_of. cbn [omap list_omap]. rewrite HI, HL, Hl.
      reflexivity.
Qed.

(** [parse_known_args] on well-formed tokens. *)
Lemma parse_known_args_well_formed (tokens : list string) :
  forallb well_formed tokens = true ->
  Argparse.parse_known_args tokens = Ok (classify tokens).
Proof.
  intros Hwf. unfold Argparse.parse_known_args.
  rewrite (slots_well_formed tokens Hwf).
  exact (consume_well_formed tokens Hwf [] [] [] []).
Qed.

(** C6, as stated, fails: the token [-h] is none of the three families,
    yet it is not handed back as unknown; the parser prints its help
    and leaves with [SystemExit]. *)
Lemma help_token_leaves :
  get_r_flags "/usr/lib/R" "--cppflags" (linux_host ∅ (always 0 "-h"))
    = ([Stdout (config_cmd "--cppflags"); Exec (config_cmd "--cppflags")],
       Raise (SystemExit 0))
  /\ classify ["-h"] = (namespace_of [] [] [], ["-h"])
  /\ ~ flag_parser_classifies.
Proof.
  split; [reflexivity|]. split; [reflexivity|].
  intros H. specialize (H ["-h"] ["-h"] eq_refl). discriminate.
Qed.

(** C6, amended: when the joined lines split into well-formed tokens
    (values attached to [-I], [-L], [-l]; no token that the parser
    takes for [-h], [--help] or [--]), [get_r_flags] returns the values
    by letter and the other tokens, in their order, as unknown; and on
    the example the include paths are the two given, nothing is
    unknown, and one warning is emitted. *)
Theorem get_r_flags_classifies :
  (forall (w : World) (r_home flags : string) (log : list event)
          (lines tokens : list string),
      In flags _R_FLAGS ->
      _get_r_cmd_config r_home flags false w = (log, Ok lines) ->
      Shlex.split (PyStr.join " " lines) = Ok tokens ->
      forallb well_formed tokens = true ->
      get_r_flags r_home flags w = (log, Ok (classify tokens)))
  /\ get_r_flags "/usr/lib/R" "--cppflags" example_world
     = ([Stdout (config_cmd "--cppflags"); Exec (config_cmd "--cppflags");
         Warn "R emitting a warning: WARNING: foo"],
        Ok ({| ns_I := Some [ArgStr "/usr/include"; ArgStr "/opt/inc"];
               ns_L := None; ns_l := None |}, [])).
Proof.
  split; [|reflexivity].
  intros w r_home flags log lines tokens Hin Hcfg Hsplit Hwf.
  unfold get_r_flags.
  assert (Hflag : existsb (String.eqb flags) _R_FLAGS = true).
  { apply existsb_exists. exists flags. split; [exact Hin|].
    apply String.eqb_refl. }
  rewrite Hflag. cbn [negb]. unfold bind, lift.
  rewrite Hcfg, Hsplit, (parse_known_args_well_formed tokens Hwf).
  now rewrite !app_nil_r.
Qed.

Lemma get_r_flags_classifies_witness :
  get_r_flags "/usr/lib/R" "--ldflags"
    (linux_host ∅ (always 0 ("-Wl,--export-dynamic -fopenmp "
                             +:+ "-L/usr/lib/R/lib -lR -lm" +:+ nl)))
  = ([Stdout (config_cmd "--ldflags"); Exec (config_cmd "--ldflags")],
     Ok ({| ns_I := None;
            ns_L := Some [ArgStr "/usr/lib/R/lib"];
            ns_l := Some [ArgStr "R"; ArgStr "m"] |},
         ["-Wl,--export-dynamic"; "-fopenmp"])).
Proof.
  apply (proj1 get_r_flags_classifies _ "/usr/lib/R" "--ldflags" _
           ["-Wl,--export-dynamic -fopenmp -L/usr/lib/R/lib -lR -lm"; ""]
           ["-Wl,--export-dynamic"; "-fopenmp"; "-L/usr/lib/R/lib"; "-lR";
            "-lm"]).
  - left. reflexivity.
  - reflexivity.
  - reflexivity.
  - reflexivity.
Defined.

(** * Further properties *)

(** ** Text *)

Lemma str_app_cons (c : ascii) (s t : string) :
  String c s +:+ t = String c (s +:+ t).
Proof. reflexivity. Qed.

Lemma str_app_nil_l (t : string) : EmptyString +:+ t = t.
Proof. reflexivity. Qed.

Lemma str_app_nil_r (s : string) : s +:+ EmptyString = s.
Proof.
  induction s as [|c s IH]; [reflexivity|]. now rewrite str_app_cons, IH.
Qed.

Lemma str_app_assoc (a b c : string) : (a +:+ b) +:+ c = a +:+ (b +:+ c).
Proof.
  induction a as [|x a IH]; [reflexivity|]. now rewrite !str_app_cons, IH.
Qed.

Lemma rev_app_spec (s acc : string) :
  String.rev_app s acc = String.rev s +:+ acc.
Proof.
  unfold String.rev. revert acc.
  induction s as [|c s IH]; intros acc; cbn [String.rev_app]; [reflexivity|].
  rewrite IH, (IH (String c EmptyString)), str_app_assoc. reflexivity.
Qed.

Lemma rev_cons (c : ascii) (s : string) :
  String.rev (String c s) = String.rev s +:+ String c EmptyString.
Proof. unfold String.rev at 1. cbn [String.rev_app]. apply rev_app_spec. Qed.

Lemma rev_app_distr (a b : string) :
  String.rev (a +:+ b) = String.rev b +:+ String.rev a.
Proof.
  induction a as [|c a IH].
  - now rewrite str_app_nil_l, str_app_nil_r.
  - now rewrite str_app_cons, !rev_cons, IH, str_app_assoc.
Qed.


(** [str.split] never returns an empty list. *)
Lemma split_go_nonempty (sep : string) (s : string) :
  forall (skip : nat) (cur : string), PyStr.split_go sep skip cur s <> [].
Proof.
  induction s as [|c s IH]; intros skip cur; cbn; [discriminate|].
  destruct skip; [|apply IH].
  destruct (PyStr.startswith _ _); [discriminate | apply IH].
Qed.

Lemma split_cons (s sep : string) :
  exists l0 rest, PyStr.split s sep = l0 :: rest.
Proof.
  unfold PyStr.split.
  destruct (PyStr.split_go sep 0 EmptyString s) as [|l0 rest] eqn:E.
  - now apply split_go_nonempty in E.
  - eauto.
Qed.


Lemma lstrip_idem (s : string) :
  starts_blank s = false -> PyStr.lstrip s = s.
Proof. destruct s as [|c s]; cbn; [reflexivity|]. now intros ->. Qed.





(** ** The probes, further *)



Lemma first_line_raises (lines : list string) (e : exn) :
  lines <> [] ->
  first_line lines = Raise e <->
  e = IndexError
  /\ exists l0, lines = [l0] /\ PyStr.startswith l0 "WARNING" = true.
Proof.
  intros Hne. destruct lines as [|l0 rest]; [congruence|].
  unfold first_line. destruct (PyStr.startswith l0 "WARNING") eqn:Hw.
  - destruct rest as [|l1 rest]; cbn.
    + split.
      * intros [= <-]. eauto.
      * intros [-> _]. reflexivity.
    + split; [discriminate|]. intros [_ (l & Hl & _)]. inversion Hl.
  - split; [discriminate|]. intros [_ (l & Hl & Hl')].
    inversion Hl; subst. congruence.
Qed.

Lemma probe_tail_raises (lines : list string) (e : exn) :
  lines <> [] ->
  match first_line lines with
  | Ok line => Ok (Some line)
  | Raise x => Raise x
  end = Raise e <->
  e = IndexError
  /\ exists l0, lines = [l0] /\ PyStr.startswith l0 "WARNING" = true.
Proof.
  intros Hne. rewrite <- (first_line_raises lines e Hne).
  destruct (first_line lines); split; congruence.
Qed.

Lemma split_not_nil (s sep : string) : PyStr.split s sep <> [].
Proof. destruct (split_cons s sep) as (l0 & rest & ->). discriminate. Qed.



(** ** R's home, further *)

(** The three strategies of [get_r_home], by what each returns. *)
Lemma get_r_home_run (w : World) :
  get_r_home w =
    if PyStr.truthy (environ w !! "R_HOME")
    then ([], Ok (environ w !! "R_HOME"))
    else match r_home_from_subprocess w with
         | (l, Raise e) => (l, Raise e)
         | (l, Ok v) =>
             if negb (PyStr.truthy v) && String.eqb (platform w) "win32"
             then (l ++ [RegistryQuery registry_key "InstallPath"],
                   Ok (registry w registry_key "InstallPath"))
             else (l, Ok v)
         end.
Proof.
  unfold get_r_home, bind, environ_get, ask, ret.
  destruct (environ w !! "R_HOME") as [[|c s]|]; cbn [PyStr.truthy negb].
  2: { cbn. destruct (String.eqb (platform w) "win32"); reflexivity. }
  all: destruct (r_home_from_subprocess w) as [l [v|e]]; [|reflexivity];
    cbn [app]; rewrite ?app_nil_r;
    destruct (PyStr.truthy v); cbn [negb andb]; [now rewrite app_nil_r|];
    unfold r_home_from_registry, bind, ask, emit, ret;
    destruct (String.eqb (platform w) "win32") eqn:Ew; cbn;
    rewrite ?Ew, ?app_nil_r; reflexivity.
Qed.

(** X3: [get_r_home] raises nothing but IndexError, only when R_HOME is
    unset or empty and the home probe raised it; the registry lookup,
    made on win32 alone, never fails. *)
Theorem get_r_home_raises_index_error_only (w : World) (e : exn) :
  snd (get_r_home w) = Raise e ->
  e = IndexError
  /\ PyStr.truthy (environ w !! "R_HOME") = false
  /\ r_home_from_subprocess w = ([Exec ["R"; "RHOME"]], Raise IndexError)
  /\ fst (get_r_home w) = [Exec ["R"; "RHOME"]].
Proof.
  rewrite get_r_home_run.
  destruct (PyStr.truthy (environ w !! "R_HOME")); [discriminate|].
  assert (Hx : forall x, snd (r_home_from_subprocess w) = Raise x ->
                         x = IndexError).
  { intros x. rewrite r_home_from_subprocess_run. cbn [snd].
    destruct (run w ["R"; "RHOME"]) as [|status out]; [discriminate|].
    destruct (Z.eqb status 0); [|discriminate].
    intros Hx. now apply probe_tail_raises in Hx; [|apply split_not_nil]. }
  assert (Hl : fst (r_home_from_subprocess w) = [Exec ["R"; "RHOME"]])
    by now rewrite r_home_from_subprocess_run.
  destruct (r_home_from_subprocess w) as [l [v|x]]; cbn [fst snd] in *.
  - destruct (negb (PyStr.truthy v) && _); discriminate.
  - intros [= ->]. rewrite (Hx e eq_refl), Hl. auto.
Qed.

Lemma get_r_home_raises_index_error_only_witness :
  r_home_from_subprocess (linux_host ∅ (always 0 "WARNING: ignoring R_HOME"))
  = ([Exec ["R"; "RHOME"]], Raise IndexError).
Proof.
  exact (proj1 (proj2 (proj2 (get_r_home_raises_index_error_only
                                (linux_host ∅
                                   (always 0 "WARNING: ignoring R_HOME"))
                                IndexError eq_refl)))).
Defined.



(** ** Paths, further *)

Lemma posixpath_join_relative (path b : string) (p : list string) :
  PyStr.startswith b "/" = false ->
  posixpath_join path (b :: p)
  = posixpath_join (path +:+ sep_after path +:+ b) p.
Proof.
  intros Hb. cbn [posixpath_join]. rewrite Hb. unfold sep_after.
  destruct (String.eqb path EmptyString || endswith path "/"); reflexivity.
Qed.

Lemma str_app_not_nil (x : string) (c : ascii) (y : string) :
  String.eqb (x +:+ String c y) EmptyString = false.
Proof. destruct x; reflexivity. Qed.

(** After a text whose last character is not a slash, a slash is put. *)
Lemma sep_after_last (x y : string) (c : ascii) :
  Ascii.eqb c "/" = false ->
  sep_after (x +:+ y +:+ String c EmptyString) = "/".
Proof.
  intros Hc. unfold sep_after, endswith.
  rewrite <- str_app_assoc, str_app_not_nil, rev_app_distr.
  change (String.rev (String c EmptyString)) with (String c EmptyString).
  change (String.rev "/") with "/".
  rewrite str_app_cons. cbn [PyStr.startswith orb]. now rewrite Hc.
Qed.

Lemma posixpath_join_two (path a b : string) (ca : ascii) :
  PyStr.startswith (a +:+ String ca EmptyString) "/" = false ->
  PyStr.startswith b "/" = false ->
  Ascii.eqb ca "/" = false ->
  posixpath_join path [a +:+ String ca EmptyString; b]
  = path +:+ sep_after path +:+ (a +:+ String ca EmptyString) +:+ "/" +:+ b.
Proof.
  intros Ha Hb Hc.
  rewrite (posixpath_join_relative _ _ _ Ha), (posixpath_join_relative _ _ _ Hb).
  cbn [posixpath_join].
  replace (path +:+ sep_after path +:+ a +:+ String ca EmptyString)
    with ((path +:+ sep_after path) +:+ a +:+ String ca EmptyString)
    by now rewrite !str_app_assoc.
  rewrite (sep_after_last (path +:+ sep_after path) a ca Hc).
  now rewrite !str_app_assoc.
Qed.

(** X5: off Windows the path of the shared library is the home, a
    slash unless the home is empty or ends with one, and
    [lib/libR.so] (Linux) or [lib/libR.dylib] (Darwin); nothing is
    checked on disk and no event occurs. *)
Theorem get_rlib_path_posix (w : World) (r_home : string) :
  platform w <> "win32" ->
  get_rlib_path r_home "Linux" w
    = ([], Ok (r_home +:+ sep_after r_home +:+ "lib/libR.so"))
  /\ get_rlib_path r_home "Darwin" w
     = ([], Ok (r_home +:+ sep_after r_home +:+ "lib/libR.dylib")).
Proof.
  intros Hw. destruct (get_rlib_path_supported w r_home Hw) as [-> ->].
  split; f_equal; f_equal.
  - exact (posixpath_join_two r_home "li" "libR.so" "b"
             eq_refl eq_refl eq_refl).
  - exact (posixpath_join_two r_home "li" "libR.dylib" "b"
             eq_refl eq_refl eq_refl).
Qed.

Lemma get_rlib_path_posix_witness :
  get_rlib_path "/opt/R/" "Linux" (linux_host ∅ no_R)
    = ([], Ok "/opt/R/lib/libR.so")
  /\ get_rlib_path EmptyString "Darwin" (linux_host ∅ no_R)
     = ([], Ok "lib/libR.dylib").
Proof.
  split.
  - apply (proj1 (get_rlib_path_posix (linux_host ∅ no_R) "/opt/R/"
                    ltac:(discriminate))).
  - apply (proj2 (get_rlib_path_posix (linux_host ∅ no_R) EmptyString
                    ltac:(discriminate))).
Defined.

Lemma get_r_exec_run (w : World) (r_home : string) :
  get_r_exec r_home w = ([], Ok (r_exec_path w r_home)).
Proof.
  unfold get_r_exec, r_exec_path, os_path_join, bind, ask, ret.
  destruct (String.eqb (platform w) "win32") eqn:Ew; cbn [andb].
  - destruct (PyStr.contains "64 bit" (version w)); cbn; now rewrite Ew.
  - cbn. now rewrite Ew.
Qed.

(** X6: off Windows the executable is the home, a slash unless the
    home is empty or ends with one, and [bin/R], whatever
    [sys.version] says; the [x64] directory is used on win32 alone. *)
Theorem get_r_exec_posix (w : World) (r_home : string) :
  platform w <> "win32" ->
  get_r_exec r_home w = ([], Ok (r_home +:+ sep_after r_home +:+ "bin/R")).
Proof.
  intros Hw. apply String.eqb_neq in Hw.
  rewrite get_r_exec_run. unfold r_exec_path. rewrite Hw.
  f_equal. f_equal.
  exact (posixpath_join_two r_home "bi" "R" "n" eq_refl eq_refl eq_refl).
Qed.

Lemma get_r_exec_posix_witness :
  get_r_exec "/usr/lib/R"
    {| environ := ∅; platform := "linux";
       version := "3.8.10 (default) [GCC 9.4.0 64 bit]";
       run := no_R; registry := fun _ _ => None;
       ntpath_join := fun a _ => a |}
  = ([], Ok "/usr/lib/R/bin/R").
Proof.
  apply (get_r_exec_posix
           {| environ := ∅; platform := "linux";
              version := "3.8.10 (default) [GCC 9.4.0 64 bit]";
              run := no_R; registry := fun _ _ => None;
              ntpath_join := fun a _ => a |} "/usr/lib/R").
  discriminate.
Defined.

(** ** Output of [R CMD config], further *)

(** What [_get_r_cmd_config] does, by the way the child process ends. *)
Lemma _get_r_cmd_config_run (r_home about : string) (allow_empty : bool)
  (w : World) :
  let cmd := config_command w r_home about in
  _get_r_cmd_config r_home about allow_empty w =
    match run w cmd with
    | CannotLaunch => ([Stdout cmd; Exec cmd], Raise OSError)
    | Exits status out =>
        if Z.eqb status 0
        then match PyStr.split (PyStr.universal_newlines out) (linesep w) with
             | [] => ([Stdout cmd; Exec cmd], Raise IndexError)
             | l0 :: rest =>
                 if PyStr.startswith l0 "WARNING"
                 then ([Stdout cmd; Exec cmd;
                        Warn ("R emitting a warning: " +:+ l0)], Ok rest)
                 else ([Stdout cmd; Exec cmd], Ok (l0 :: rest))
             end
        else ([Stdout cmd; Exec cmd], Raise (CalledProcessError status))
    end.
Proof.
  unfold _get_r_cmd_config, bind at 1. rewrite get_r_exec_run.
  unfold config_command, check_output_text, check_output, bind, emit, ask, ret.
  destruct (run w _) as [|status out]; [reflexivity|].
  destruct (Z.eqb status 0); [|reflexivity].
  destruct (PyStr.split _ _) as [|l0 rest]; [reflexivity|].
  destruct (PyStr.startswith l0 "WARNING"); reflexivity.
Qed.






(** ** The flag parser, further *)

Lemma get_r_flags_run (w : World) (r_home flags : string) (log : list event)
  (tokens : list string) :
  fetched w r_home flags log tokens ->
  get_r_flags r_home flags w = (log, Argparse.parse_known_args tokens).
Proof.
  intros (Hin & lines & Hcfg & Hsplit). unfold get_r_flags.
  assert (Hflag : existsb (String.eqb flags) _R_FLAGS = true).
  { apply existsb_exists. exists flags. split; [exact Hin|].
    apply String.eqb_refl. }
  rewrite Hflag. cbn [negb]. unfold bind, lift. rewrite Hcfg, Hsplit.
  destruct (Argparse.parse_known_args tokens); now rewrite !app_nil_r.
Qed.

(** The parser never finds an option string ambiguous. *)
Lemma parse_optional_not_ambiguous (t : string) :
  Argparse._parse_optional t <> Argparse.Ambiguous.
Proof.
  destruct t as [|c0 tl]; [discriminate|].
  unfold Argparse._parse_optional.
  destruct (Ascii.eqb c0 "-") eqn:E0; [|discriminate].
  apply Ascii.eqb_eq in E0. subst c0. cbn [negb].
  destruct (Argparse.lookup _ _); [discriminate|].
  destruct (String.eqb tl EmptyString); [discriminate|].
  destruct (match Argparse.split_eq (String "-" tl) with
            | Some (o, e) => _ | None => None end) as [r|] eqn:Er.
  { destruct (Argparse.split_eq (String "-" tl)) as [[o e]|];
      [|discriminate].
    destruct (Argparse.lookup o _); [|discriminate].
    injection Er as <-. discriminate. }
  clear Er. destruct tl as [|c1 rest]; [cbn; repeat case_match; discriminate|].
  assert (Hlen : (length (Argparse._get_option_tuples
                            (String "-" (String c1 rest))) <= 1)%nat).
  { destruct (Ascii.eqb c1 "-") eqn:Ed.
    - apply Ascii.eqb_eq in Ed. subst c1. rewrite get_option_tuples_long.
      destruct (PyStr.startswith "help" _); cbn; lia.
    - assert (Ed' := eqb_sym_false _ _ Ed).
      unfold Argparse._get_option_tuples. crunch.
      destruct (Ascii.eqb c1 "h") eqn:Eh.
      { apply Ascii.eqb_eq in Eh. subst c1. crunch.
        repeat case_match; cbn; lia. }
      assert (Eh' := eqb_sym_false _ _ Eh).
      destruct (Ascii.eqb c1 "I") eqn:EI.
      { apply Ascii.eqb_eq in EI. subst c1. crunch.
        repeat case_match; cbn; lia. }
      assert (EI' := eqb_sym_false _ _ EI).
      destruct (Ascii.eqb c1 "L") eqn:EL.
      { apply Ascii.eqb_eq in EL. subst c1. crunch.
        repeat case_match; cbn; lia. }
      assert (EL' := eqb_sym_false _ _ EL).
      destruct (Ascii.eqb c1 "l") eqn:El.
      { apply Ascii.eqb_eq in El. subst c1. crunch.
        repeat case_match; cbn; lia. }
      assert (El' := eqb_sym_false _ _ El).
      crunch. lia. }
  destruct (Argparse._get_option_tuples _) as [|[[a o] e] [|x l]];
    [repeat case_match; discriminate | discriminate | cbn in Hlen; lia].
Qed.

(** So the pattern of any argument list can be made. *)
Lemma slots_after_dashes (args : list string) :
  Argparse.slots true args = Ok (map (fun t => (t, Argparse.SlotA)) args).
Proof.
  induction args as [|t ts IH]; [reflexivity|].
  cbn [Argparse.slots map]. now rewrite IH.
Qed.

Lemma slots_total (args : list string) :
  exists sl, Argparse.slots false args = Ok sl
             /\ map fst sl = args.
Proof.
  induction args as [|t ts (sl & Hsl & Hfst)]; [now exists []|].
  cbn [Argparse.slots].
  destruct (String.eqb t "--").
  - rewrite slots_after_dashes. eexists. split; [reflexivity|].
    cbn. f_equal. rewrite map_map. cbn. apply map_id.
  - rewrite Hsl.
    pose proof (parse_optional_not_ambiguous t) as Hna.
    destruct (Argparse._parse_optional t); [| |congruence];
      (eexists; split; [reflexivity|]; cbn; now f_equal).
Qed.

(** Well-formed tokens in front of any other arguments. *)
Lemma slots_app (pre args : list string) :
  forallb well_formed pre = true ->
  Argparse.slots false (pre ++ args)
  = match Argparse.slots false args with
    | Ok r => Ok (map (fun t => (t, slot_of t)) pre ++ r)
    | Raise e => Raise e
    end.
Proof.
  induction pre as [|t ts IH]; intros Hwf.
  - cbn. now destruct (Argparse.slots false args).
  - cbn [forallb] in Hwf. apply andb_prop in Hwf as [Ht Hts].
    specialize (IH Hts). cbn [Argparse.slots map app]. rewrite IH.
    unfold slot_of at 1.
    assert (Hd : String.eqb t "--" = false
                 /\ Argparse._parse_optional t <> Argparse.Ambiguous).
    { split; [|apply parse_optional_not_ambiguous].
      destruct (token_cases t Ht)
        as [(v & -> & Hv) | [(v & -> & Hv) | [(v & -> & Hv) | (Hf & Hp)]]];
        try reflexivity.
      now apply passes_through_not_dashes. }
    destruct Hd as [-> Hna].
    destruct (Argparse.slots false args);
      destruct (Argparse._parse_optional t) eqn:Ep; try congruence;
      unfold slot_of; now rewrite Ep.
Qed.

Lemma consume_app (pre : list string) :
  forallb well_formed pre = true ->
  forall (vI vL vl extras : list string) (l : list (string * Argparse.slot)),
    Argparse.consume (namespace_of vI vL vl) extras
      (map (fun t => (t, slot_of t)) pre ++ l)
    = Argparse.consume
        (namespace_of (vI ++ values_of "-I" pre) (vL ++ values_of "-L" pre)
           (vl ++ values_of "-l" pre))
        (extras ++ List.filter (fun t => negb (is_flag t)) pre) l.
Proof.
  induction pre as [|t ts IH]; intros Hwf vI vL vl extras l.
  - cbn. now rewrite !app_nil_r.
  - cbn [forallb] in Hwf. apply andb_prop in Hwf as [Ht Hts].
    specialize (IH Hts). cbn [map app]. unfold slot_of at 1.
    destruct (token_cases t Ht)
      as [(v & -> & Hv) | [(v & -> & Hv) | [(v & -> & Hv) | (Hf & Hp)]]].
    + rewrite (parse_optional_I v Hv),
        (consume_attached _ _ _ _ _ _ _ (plain_value_not_dashes v Hv)),
        append_namespace_of, IH.
      rewrite <- app_assoc. reflexivity.
    + rewrite (parse_optional_L v Hv),
        (consume_attached _ _ _ _ _ _ _ (plain_value_not_dashes v Hv)),
        append_namespace_of, IH.
      rewrite <- app_assoc. reflexivity.
    + rewrite (parse_optional_l v Hv),
        (consume_attached _ _ _ _ _ _ _ (plain_value_not_dashes v Hv)),
        append_namespace_of, IH.
      rewrite <- app_assoc. reflexivity.
    + assert (Hstep : forall l',
                Argparse.consume (namespace_of vI vL vl) extras
                  ((t, match Argparse._parse_optional t with
                       | Argparse.Optional a o e => Argparse.SlotO a o e
                       | _ => Argparse.SlotA
                       end) :: l')
                = Argparse.consume (namespace_of vI vL vl) (extras ++ [t]) l').
      { intros l'.
        destruct (parse_optional_passes t Hf Hp) as [-> | ->]; reflexivity. }
      rewrite Hstep, IH. cbn [List.filter]. rewrite Hf. cbn [negb].
      rewrite <- app_assoc.
      unfold is_flag in Hf.
      apply orb_false_elim in Hf as [Hf Hl].
      apply orb_false_elim in Hf as [HI HL].
      unfold values_of. cbn [omap list_omap]. rewrite HI, HL, Hl.
      reflexivity.
Qed.

Lemma consume_positionals (args : list string) :
  forall (ns : Namespace argval) (extras : list string),
    Argparse.consume ns extras (map (fun t => (t, Argparse.SlotA)) args)
    = Ok (ns, extras ++ args).
Proof.
  induction args as [|t ts IH]; intros ns extras; cbn.
  - now rewrite app_nil_r.
  - now rewrite IH, <- app_assoc.
Qed.

(** [parse_known_args] on well-formed tokens followed by anything. *)
Lemma parse_known_args_app (pre args : list string)
  (sl : list (string * Argparse.slot)) :
  forallb well_formed pre = true ->
  Argparse.slots false args = Ok sl ->
  Argparse.parse_known_args (pre ++ args)
  = Argparse.consume
      (namespace_of (values_of "-I" pre) (values_of "-L" pre)
         (values_of "-l" pre))
      (List.filter (fun t => negb (is_flag t)) pre) sl.
Proof.
  intros Hwf Hsl. unfold Argparse.parse_known_args.
  rewrite (slots_app pre args Hwf), Hsl.
  exact (consume_app pre Hwf [] [] [] [] sl).
Qed.

Lemma values_of_app (flag : string) (a b : list string) :
  values_of flag (a ++ b) = values_of flag a ++ values_of flag b.
Proof.
  unfold values_of. apply omap_app.
Qed.

Lemma classify_app (a b : list string) :
  classify (a ++ b)
  = (namespace_of (values_of "-I" a ++ values_of "-I" b)
       (values_of "-L" a ++ values_of "-L" b)
       (values_of "-l" a ++ values_of "-l" b),
     snd (classify a) ++ snd (classify b)).
Proof.
  unfold classify. cbn [snd]. now rewrite !values_of_app, List.filter_app.
Qed.

Lemma consume_detached (ns : Namespace argval) (extras : list string)
  (t o v : string) (d : Argparse.dest) (l : list (string * Argparse.slot)) :
  String.eqb v "--" = false ->
  Argparse.consume ns extras
    ((t, Argparse.SlotO (Some (Argparse.Append d)) o None)
     :: (v, Argparse.SlotA) :: l)
  = Argparse.consume (Argparse.append d (ArgStr v) ns) extras l.
Proof.
  intros Hv.
  cbn [Argparse.consume Argparse.consume_optional Argparse.from_following
       Argparse.take_actions Argparse._get_values app].
  now rewrite Hv.
Qed.

Lemma parse_optional_no_dash (v : string) :
  PyStr.startswith v "-" = false ->
  Argparse._parse_optional v = Argparse.Positional
  /\ String.eqb v "--" = false.
Proof.
  destruct v as [|c v]; [now split|]. cbn [PyStr.startswith].
  rewrite andb_true_r. intros Hc. unfold Argparse._parse_optional.
  cbn [String.eqb]. now rewrite Hc.
Qed.

(** X9: a flag letter written apart from its value takes the next token:
    when the tokens are well formed but for one of [-I], [-L], [-l]
    followed by a value that does not begin with a dash, [get_r_flags]
    returns what it returns with the value attached to the letter. *)
Theorem detached_value_is_taken (w : World) (r_home flags : string)
  (log : list event) (pre rest : list string) (flag v : string) :
  fetched w r_home flags log (pre ++ flag :: v :: rest) ->
  In flag ["-I"; "-L"; "-l"] ->
  PyStr.startswith v "-" = false -> plain_value v = true ->
  forallb well_formed pre = true -> forallb well_formed rest = true ->
  get_r_flags r_home flags w
  = (log, Ok (classify (pre ++ (flag +:+ v) :: rest))).
Proof.
  intros Hf Hflag Hdash Hv Hpre Hrest.
  rewrite (get_r_flags_run _ _ _ _ _ Hf). f_equal.
  destruct (parse_optional_no_dash v Hdash) as [Hpos Hnd].
  assert (Hsl : forall d,
             Argparse._parse_optional flag
             = Argparse.Optional (Some (Argparse.Append d)) flag None ->
             String.eqb flag "--" = false ->
             Argparse.slots false (flag :: v :: rest)
             = Ok ((flag, Argparse.SlotO (Some (Argparse.Append d)) flag None)
                   :: (v, Argparse.SlotA)
                   :: map (fun t => (t, slot_of t)) rest)).
  { intros d Hpo Hfd. cbn [Argparse.slots].
    rewrite Hfd, Hpo, Hnd, Hpos, (slots_well_formed rest Hrest).
    reflexivity. }
  rewrite (classify_app pre ((flag +:+ v) :: rest)).
  destruct Hflag as [<- | [<- | [<- | []]]].
  - rewrite (parse_known_args_app pre _ _ Hpre
               (Hsl Argparse.DestI eq_refl eq_refl)),
      (consume_detached _ _ _ _ _ _ _ Hnd), append_namespace_of,
      (consume_well_formed rest Hrest).
    unfold classify. cbn [snd]. rewrite <- !app_assoc. reflexivity.
  - rewrite (parse_known_args_app pre _ _ Hpre
               (Hsl Argparse.DestL eq_refl eq_refl)),
      (consume_detached _ _ _ _ _ _ _ Hnd), append_namespace_of,
      (consume_well_formed rest Hrest).
    unfold classify. cbn [snd]. rewrite <- !app_assoc. reflexivity.
  - rewrite (parse_known_args_app pre _ _ Hpre
               (Hsl Argparse.Destl eq_refl eq_refl)),
      (consume_detached _ _ _ _ _ _ _ Hnd), append_namespace_of,
      (consume_well_formed rest Hrest).
    unfold classify. cbn [snd]. rewrite <- !app_assoc. reflexivity.
Qed.

Lemma detached_value_is_taken_witness :
  get_r_flags "/usr/lib/R" "--ldflags"
    (linux_host ∅ (always 0 "-L /usr/lib/R/lib -lR"))
  = ([Stdout (config_cmd "--ldflags"); Exec (config_cmd "--ldflags")],
     Ok ({| ns_I := None; ns_L := Some [ArgStr "/usr/lib/R/lib"];
            ns_l := Some [ArgStr "R"] |}, [])).
Proof.
  apply (detached_value_is_taken
           (linux_host ∅ (always 0 "-L /usr/lib/R/lib -lR"))
           "/usr/lib/R" "--ldflags" _ [] ["-lR"] "-L" "/usr/lib/R/lib").
  - split; [left; reflexivity|].
    exists ["-L /usr/lib/R/lib -lR"]. split; reflexivity.
  - right. left. reflexivity.
  - reflexivity.
  - reflexivity.
  - reflexivity.
  - reflexivity.
Defined.

(** X10: a token [--] ends the options: with well-formed tokens before
    it, [get_r_flags] classifies those and returns [--] and every token
    after it as unknown, [-I], [-L] and [-l] flags included. *)
Theorem double_dash_hides_flags (w : World) (r_home flags : string)
  (log : list event) (pre post : list string) :
  fetched w r_home flags log (pre ++ "--" :: post) ->
  forallb well_formed pre = true ->
  get_r_flags r_home flags w
  = (log, Ok (fst (classify pre), snd (classify pre) ++ "--" :: post)).
Proof.
  intros Hf Hpre. rewrite (get_r_flags_run _ _ _ _ _ Hf). f_equal.
  assert (Hsl : Argparse.slots false ("--" :: post)
                = Ok (("--", Argparse.SlotDash)
                      :: map (fun t => (t, Argparse.SlotA)) post)).
  { cbn [Argparse.slots]. cbn [String.eqb]. eval_eqb. cbn [andb].
    now rewrite slots_after_dashes. }
  rewrite (parse_known_args_app pre _ _ Hpre Hsl).
  cbn [Argparse.consume]. rewrite consume_positionals.
  unfold classify. cbn [fst snd]. now rewrite <- app_assoc.
Qed.

Lemma double_dash_hides_flags_witness :
  get_r_flags "/usr/lib/R" "--ldflags"
    (linux_host ∅ (always 0 "-lm -- -L/usr/lib -lR"))
  = ([Stdout (config_cmd "--ldflags"); Exec (config_cmd "--ldflags")],
     Ok ({| ns_I := None; ns_L := None; ns_l := Some [ArgStr "m"] |},
         ["--"; "-L/usr/lib"; "-lR"])).
Proof.
  apply (double_dash_hides_flags
           (linux_host ∅ (always 0 "-lm -- -L/usr/lib -lR"))
           "/usr/lib/R" "--ldflags" _ ["-lm"] ["-L/usr/lib"; "-lR"]).
  - split; [left; reflexivity|].
    exists ["-lm -- -L/usr/lib -lR"]. split; reflexivity.
  - reflexivity.
Defined.

(** X11: a token [-h] or [--help] after well-formed tokens makes
    [get_r_flags] leave with [SystemExit(0)], whatever the tokens that
    follow are; the values read before it are lost. *)
Theorem help_token_exits (w : World) (r_home flags : string)
  (log : list event) (pre post : list string) (h : string) :
  fetched w r_home flags log (pre ++ h :: post) ->
  In h ["-h"; "--help"] ->
  forallb well_formed pre = true ->
  get_r_flags r_home flags w = (log, Raise (SystemExit 0)).
Proof.
  intros Hf Hh Hpre. rewrite (get_r_flags_run _ _ _ _ _ Hf). f_equal.
  destruct (slots_total post) as (sl & Hpost & _).
  assert (Hsl : Argparse.slots false (h :: post)
                = Ok ((h, Argparse.SlotO (Some Argparse.Help) h None) :: sl)).
  { cbn [Argparse.slots]. rewrite Hpost.
    destruct Hh as [<- | [<- | []]]; reflexivity. }
  rewrite (parse_known_args_app pre _ _ Hpre Hsl). reflexivity.
Qed.

Lemma help_token_exits_witness :
  get_r_flags "/usr/lib/R" "--cppflags"
    (linux_host ∅ (always 0 "-I/usr/include --help -I"))
  = ([Stdout (config_cmd "--cppflags"); Exec (config_cmd "--cppflags")],
     Raise (SystemExit 0)).
Proof.
  apply (help_token_exits
           (linux_host ∅ (always 0 "-I/usr/include --help -I"))
           "/usr/lib/R" "--cppflags" _ ["-I/usr/include"] ["-I"] "--help").
  - split; [right; left; reflexivity|].
    exists ["-I/usr/include --help -I"]. split; reflexivity.
  - right. left. reflexivity.
  - reflexivity.
Defined.

(** X12: a last token that is [-I], [-L] or [-l] alone, after
    well-formed tokens, makes [get_r_flags] leave with
    [SystemExit(2)]: the letter expects one argument. *)
Theorem trailing_flag_exits (w : World) (r_home flags : string)
  (log : list event) (pre : list string) (flag : string) :
  fetched w r_home flags log (pre ++ [flag]) ->
  In flag ["-I"; "-L"; "-l"] ->
  forallb well_formed pre = true ->
  get_r_flags r_home flags w = (log, Raise (SystemExit 2)).
Proof.
  intros Hf Hflag Hpre. rewrite (get_r_flags_run _ _ _ _ _ Hf). f_equal.
  destruct Hflag as [<- | [<- | [<- | []]]].
  - now rewrite (parse_known_args_app pre ["-I"] _ Hpre eq_refl).
  - now rewrite (parse_known_args_app pre ["-L"] _ Hpre eq_refl).
  - now rewrite (parse_known_args_app pre ["-l"] _ Hpre eq_refl).
Qed.

Lemma trailing_flag_exits_witness :
  get_r_flags "/usr/lib/R" "--cppflags"
    (linux_host ∅ (always 0 ("-DNDEBUG -I" +:+ nl)))
  = ([Stdout (config_cmd "--cppflags"); Exec (config_cmd "--cppflags")],
     Raise (SystemExit 2)).
Proof.
  apply (trailing_flag_exits
           (linux_host ∅ (always 0 ("-DNDEBUG -I" +:+ nl)))
           "/usr/lib/R" "--cppflags" _ ["-DNDEBUG"] "-I").
  - split; [right; left; reflexivity|].
    exists ["-DNDEBUG -I"; EmptyString]. split; reflexivity.
  - left. reflexivity.
  - reflexivity.
Defined.

(** ** What [get_r_flags] can raise *)


Lemma from_following_raises (a : Argparse.action) (o : string)
  (acc : list Argparse.action_tuple) (next : option Argparse.slot)
  (next_string : string) (e : exn) :
  Argparse.from_following a o acc next next_string = Raise e ->
  e = SystemExit 2.
Proof.
  unfold Argparse.from_following. repeat case_match; congruence.
Qed.

Lemma with_explicit_raises (x : string) :
  forall (a : Argparse.action) (o : string)
         (acc : list Argparse.action_tuple) (next : option Argparse.slot)
         (next_string : string) (e : exn),
    Argparse.with_explicit a o x acc next next_string = Raise e ->
    e = SystemExit 2.
Proof.
  induction x as [|c x IH]; intros a o acc next next_string e;
    destruct a; cbn [Argparse.with_explicit]; try discriminate;
    repeat case_match; try congruence; subst;
    eauto using from_following_raises.
Qed.

Lemma take_actions_raises (ts : list Argparse.action_tuple) :
  forall (ns : Namespace argval) (e : exn),
    Argparse.take_actions ns ts = Raise e -> e = SystemExit 0.
Proof.
  induction ts as [|[[a args] o] ts IH]; intros ns e; cbn; [discriminate|].
  destruct a; [congruence | apply IH].
Qed.

Lemma consume_raises (n : nat) :
  forall (l : list (string * Argparse.slot)) (ns : Namespace argval)
         (extras : list string) (e : exn),
    (length l <= n)%nat ->
    Argparse.consume ns extras l = Raise e ->
    e = SystemExit 0 \/ e = SystemExit 2.
Proof.
  induction n as [|n IH]; intros l ns extras e Hlen.
  - destruct l; [discriminate | cbn in Hlen; lia].
  - destruct l as [|[t s] l]; [discriminate|]. cbn [length] in Hlen.
    assert (Hrec : forall ns' extras' l', (length l' <= n)%nat ->
              Argparse.consume ns' extras' l' = Raise e ->
              e = SystemExit 0 \/ e = SystemExit 2) by eauto.
    destruct s as [| |[a|] o x]; cbn [Argparse.consume];
      try (apply Hrec; lia).
    destruct (Argparse.consume_optional _ _ _ _ _) as [[tuples took]|y] eqn:Ec.
    + destruct (Argparse.take_actions ns tuples) as [ns'|y] eqn:Et.
      * destruct l as [|p l'']; [apply Hrec; cbn; lia|].
        destruct took; apply Hrec; cbn in *; lia.
      * intros [= <-]. left. eapply take_actions_raises, Et.
    + intros [= <-]. right. unfold Argparse.consume_optional in Ec.
      destruct x; eauto using with_explicit_raises, from_following_raises.
Qed.

Lemma parse_known_args_raises (args : list string) (e : exn) :
  Argparse.parse_known_args args = Raise e ->
  e = SystemExit 0 \/ e = SystemExit 2.
Proof.
  unfold Argparse.parse_known_args.
  destruct (slots_total args) as (sl & -> & _).
  apply (consume_raises (length sl)). lia.
Qed.



(** ** Splitting the output *)

Lemma all_chars_app (p : ascii -> bool) (a b : string) :
  all_chars p (a +:+ b) = all_chars p a && all_chars p b.
Proof.
  induction a as [|c a IH]; [reflexivity|].
  rewrite str_app_cons. cbn [all_chars]. now rewrite IH, andb_assoc.
Qed.

Lemma all_chars_join (p : ascii -> bool) (lines : list string) :
  p " "%char = true ->
  forallb (all_chars p) lines = true ->
  all_chars p (PyStr.join " " lines) = true.
Proof.
  intros Hsp. induction lines as [|x [|y l] IH]; intros Hall.
  - reflexivity.
  - cbn in *. now rewrite andb_true_r in Hall.
  - change (PyStr.join " " (x :: y :: l))
      with (x +:+ " " +:+ PyStr.join " " (y :: l)).
    cbn [forallb] in Hall. apply andb_prop in Hall as [Hx Hl].
    rewrite !all_chars_app, Hx, (IH Hl). cbn [all_chars]. now rewrite Hsp.
Qed.

(** Without quotes and backslashes the reader stays between the two
    states of plain text and always ends. *)
Lemma read_unquoted (s : string) :
  unquoted s = true ->
  forall (token : string) (quoted : bool),
    (exists l, Shlex.read Shlex.Ws token quoted s = Ok l)
    /\ (exists l, Shlex.read Shlex.Word token quoted s = Ok l).
Proof.
  unfold unquoted. induction s as [|c s IH]; intros Hu token quoted.
  - split; cbn; [eauto|]. destruct (_ && _); eauto.
  - cbn [all_chars] in Hu. apply andb_prop in Hu as [Hc Hs].
    apply andb_prop in Hc as [Hq He].
    apply negb_true_iff in Hq, He. specialize (IH Hs).
    split; cbn [Shlex.read]; rewrite Hq, He.
    + destruct (Shlex.whitespace c); apply IH.
    + destruct (Shlex.whitespace c); [|apply IH].
      destruct (_ || _); [|apply IH].
      destruct (proj1 (IH EmptyString false)) as (l & ->). eauto.
Qed.

(** X14: when no line of the config output holds a quote or a
    backslash, splitting it cannot fail: [get_r_flags] hands some
    tokens to the argument parser and never raises ValueError. *)
Theorem unquoted_output_splits (w : World) (r_home flags : string)
  (log : list event) (lines : list string) :
  In flags _R_FLAGS ->
  _get_r_cmd_config r_home flags false w = (log, Ok lines) ->
  forallb unquoted lines = true ->
  exists tokens,
    Shlex.split (PyStr.join " " lines) = Ok tokens
    /\ get_r_flags r_home flags w = (log, Argparse.parse_known_args tokens)
    /\ forall msg, snd (get_r_flags r_home flags w) <> Raise (ValueError msg).
Proof.
  intros Hin Hcfg Hu.
  assert (Hj : unquoted (PyStr.join " " lines) = true)
    by (apply all_chars_join; [reflexivity | exact Hu]).
  destruct (proj1 (read_unquoted _ Hj EmptyString false)) as (tokens & Hs).
  exists tokens. split; [exact Hs|].
  assert (Hrun : get_r_flags r_home flags w
                 = (log, Argparse.parse_known_args tokens)).
  { apply get_r_flags_run. split; [exact Hin|]. eauto. }
  split; [exact Hrun|]. intros msg. rewrite Hrun. cbn [snd].
  intros Hp. apply parse_known_args_raises in Hp as [Hp | Hp]; discriminate.
Qed.

Lemma unquoted_output_splits_witness :
  exists tokens,
    Shlex.split (PyStr.join " " ["-I/usr/share/R/include -DNDEBUG"; ""])
    = Ok tokens
    /\ get_r_flags "/usr/lib/R" "--cppflags"
         (linux_host ∅ (always 0 ("-I/usr/share/R/include -DNDEBUG" +:+ nl)))
       = ([Stdout (config_cmd "--cppflags"); Exec (config_cmd "--cppflags")],
          Argparse.parse_known_args tokens)
    /\ forall msg,
        snd (get_r_flags "/usr/lib/R" "--cppflags"
               (linux_host ∅
                  (always 0 ("-I/usr/share/R/include -DNDEBUG" +:+ nl))))
        <> Raise (ValueError msg).
Proof.
  apply (unquoted_output_splits
           (linux_host ∅ (always 0 ("-I/usr/share/R/include -DNDEBUG"
                                    +:+ nl)))
           "/usr/lib/R" "--cppflags" _
           ["-I/usr/share/R/include -DNDEBUG"; ""]).
  - right. left. reflexivity.
  - reflexivity.
  - reflexivity.
Defined.

Lemma push_app (token : string) (c : ascii) (wd : string) :
  Shlex.push token c +:+ wd = token +:+ String c wd.
Proof. unfold Shlex.push. now rewrite str_app_assoc. Qed.

Lemma word_char_plain (c : ascii) :
  word_char c = true ->
  Shlex.whitespace c = false /\ Shlex.quotes c = false
  /\ Shlex.escape c = false.
Proof.
  unfold word_char. intros H. apply andb_prop in H as [H He].
  apply andb_prop in H as [Hw Hq]. now rewrite !negb_true_iff in *.
Qed.

Lemma read_word_chars (wd : string) :
  all_chars word_char wd = true ->
  forall (token : string) (quoted : bool) (s : string),
    Shlex.read Shlex.Word token quoted (wd +:+ s)
    = Shlex.read Shlex.Word (token +:+ wd) quoted s.
Proof.
  induction wd as [|c wd IH]; intros Hwd token quoted s.
  - now rewrite str_app_nil_l, str_app_nil_r.
  - cbn [all_chars] in Hwd. apply andb_prop in Hwd as [Hc Hwd].
    destruct (word_char_plain c Hc) as (Hw & Hq & He).
    rewrite str_app_cons. cbn [Shlex.read]. rewrite Hw, Hq, He.
    now rewrite (IH Hwd), push_app.
Qed.

Lemma read_ws_word (c : ascii) (wd : string) :
  all_chars word_char (String c wd) = true ->
  forall (token : string) (quoted : bool) (s : string),
    Shlex.read Shlex.Ws token quoted (String c wd +:+ s)
    = Shlex.read Shlex.Word (String c wd) false s.
Proof.
  intros Hwd token quoted s. cbn [all_chars] in Hwd.
  apply andb_prop in Hwd as [Hc Hwd].
  destruct (word_char_plain c Hc) as (Hw & Hq & He).
  rewrite str_app_cons. cbn [Shlex.read]. rewrite Hw, Hq, He.
  now rewrite (read_word_chars wd Hwd).
Qed.

(** Lines made of word characters are the tokens, the empty ones
    apart. *)
Lemma split_lines_of_words (lines : list string) :
  forallb (all_chars word_char) lines = true ->
  Shlex.split (PyStr.join " " lines) = Ok (nonempty_lines lines).
Proof.
  unfold Shlex.split.
  induction lines as [|x [|y l] IH]; intros Hall.
  - reflexivity.
  - cbn [PyStr.join]. cbn [forallb] in Hall. rewrite andb_true_r in Hall.
    destruct x as [|c x]; [reflexivity|].
    pose proof (read_ws_word c x Hall EmptyString false EmptyString) as Hr.
    rewrite str_app_nil_r in Hr. rewrite Hr. reflexivity.
  - change (PyStr.join " " (x :: y :: l))
      with (x +:+ " " +:+ PyStr.join " " (y :: l)).
    cbn [forallb] in Hall. apply andb_prop in Hall as [Hx Hl].
    specialize (IH Hl). destruct x as [|c x].
    + rewrite str_app_nil_l, str_app_cons, str_app_nil_l.
      cbn [Shlex.read]. change (Shlex.whitespace " ") with true.
      cbn iota. exact IH.
    + rewrite (read_ws_word c x Hx), str_app_cons, str_app_nil_l.
      cbn [Shlex.read]. change (Shlex.whitespace " ") with true.
      cbn [String.eqb negb orb]. now rewrite IH.
Qed.

(** X15: when every line of the config output is one word (no blank,
    quote or backslash) or empty, the line breaks separate the tokens:
    [get_r_flags] parses exactly the non-empty lines, in their order. *)
Theorem lines_are_tokens (w : World) (r_home flags : string)
  (log : list event) (lines : list string) :
  In flags _R_FLAGS ->
  _get_r_cmd_config r_home flags false w = (log, Ok lines) ->
  forallb (all_chars word_char) lines = true ->
  fetched w r_home flags log (nonempty_lines lines)
  /\ get_r_flags r_home flags w
     = (log, Argparse.parse_known_args (nonempty_lines lines)).
Proof.
  intros Hin Hcfg Hall.
  assert (Hf : fetched w r_home flags log (nonempty_lines lines)).
  { split; [exact Hin|]. exists lines. split; [exact Hcfg|].
    now apply split_lines_of_words. }
  split; [exact Hf | now apply get_r_flags_run].
Qed.

Lemma lines_are_tokens_witness :
  get_r_flags "/usr/lib/R" "--ldflags"
    (linux_host ∅ (always 0 ("-L/usr/lib/R/lib" +:+ nl +:+ nl +:+ "-lR"
                             +:+ nl +:+ "-fopenmp" +:+ nl)))
  = ([Stdout (config_cmd "--ldflags"); Exec (config_cmd "--ldflags")],
     Ok ({| ns_I := None; ns_L := Some [ArgStr "/usr/lib/R/lib"];
            ns_l := Some [ArgStr "R"] |}, ["-fopenmp"])).
Proof.
  apply (proj2 (lines_are_tokens
                  (linux_host ∅ (always 0 ("-L/usr/lib/R/lib" +:+ nl +:+ nl
                                           +:+ "-lR" +:+ nl +:+ "-fopenmp"
                                           +:+ nl)))
                  "/usr/lib/R" "--ldflags" _
                  ["-L/usr/lib/R/lib"; ""; "-lR"; "-fopenmp"; ""]
                  ltac:(left; reflexivity) eq_refl eq_refl)).
Defined.

(** ** Accumulating options, further *)




(** X17: the two methods only append.  Whatever the arguments, and
    also when it ends in TypeError, [add_lib] leaves [include_dirs] and
    [extra_compile_args] alone and keeps what the three other lists
    held in front; [add_include] leaves the three lists of [add_lib]
    alone and keeps what its two lists held in front. *)
Theorem methods_only_append `{EqDecision V} (self : CExtensionOptions V)
  (args : Namespace V) (unknown : list string) (ignore : list V) :
  (let r := add_lib args unknown ignore self in
   include_dirs (self_after r) = include_dirs self
   /\ extra_compile_args (self_after r) = extra_compile_args self
   /\ libraries self `prefix_of` libraries (self_after r)
   /\ library_dirs self `prefix_of` library_dirs (self_after r)
   /\ extra_link_args self `prefix_of` extra_link_args (self_after r))
  /\ (let r := add_include args unknown self in
      libraries (self_after r) = libraries self
      /\ library_dirs (self_after r) = library_dirs self
      /\ extra_link_args (self_after r) = extra_link_args self
      /\ include_dirs self `prefix_of` include_dirs (self_after r)
      /\ extra_compile_args self
         `prefix_of` extra_compile_args (self_after r)).
Proof.
  split.
  - unfold add_lib. destruct (ns_L args), (ns_l args); cbn;
      repeat split; try apply prefix_app_r; reflexivity.
  - unfold add_include. destruct (ns_I args); cbn;
      repeat split; try apply prefix_app_r; reflexivity.
Qed.

(** X18: the two methods write to different lists, so the object is
    the same whether [add_lib] is called before [add_include] (as
    [iter_info] does) or after it, and [add_lib] ends the same way. *)
Theorem add_lib_add_include_commute `{EqDecision V}
  (self : CExtensionOptions V) (largs cargs : Namespace V)
  (lunknown cunknown : list string) (ignore : list V) :
  self_after (add_include cargs cunknown
                (self_after (add_lib largs lunknown ignore self)))
  = self_after (add_lib largs lunknown ignore
                  (self_after (add_include cargs cunknown self)))
  /\ ended (add_lib largs lunknown ignore
              (self_after (add_include cargs cunknown self)))
     = ended (add_lib largs lunknown ignore self).
Proof.
  unfold add_lib, add_include.
  destruct (ns_L largs), (ns_l largs), (ns_I cargs); split; reflexivity.
Qed.





(** ** The report *)

Lemma gbind_run {A B} (m : G A) (f : A -> G B) (w : World)
  (l : list item) (a : A) :
  m w = (l, Ok a) ->
  gbind m f w = (l ++ fst (f a w), snd (f a w)).
Proof. intros H. unfold gbind. rewrite H. now destruct (f a w). Qed.


Lemma gbind_log {A B} (m : G A) (f : A -> G B) (w : World) :
  exists tl, fst (gbind m f w) = fst (m w) ++ tl.
Proof.
  unfold gbind. destruct (m w) as [l [a|e]].
  - destruct (f a w) as [l2 r]. now exists l2.
  - exists []. cbn. now rewrite app_nil_r.
Qed.

Lemma run_in_run {A} (m : M A) (w : World) (l : list event) (r : result A) :
  m w = (l, r) -> run_in m w = (map Effect l, r).
Proof. intros H. unfold run_in. now rewrite H. Qed.

(** The rows and effects of [iter_info] are stepped through with what
    the context knows of the probes and of the import. *)
Ltac step_with tac :=
  repeat (erewrite gbind_run by first [reflexivity | tac]; cbn [fst snd]).



Lemma get_r_flags_log (w : World) (r_home flags : string) :
  In flags _R_FLAGS ->
  exists tl, fst (get_r_flags r_home flags w)
             = Stdout (config_command w r_home flags)
               :: Exec (config_command w r_home flags) :: tl.
Proof.
  intros Hin. unfold get_r_flags.
  assert (Hflag : existsb (String.eqb flags) _R_FLAGS = true).
  { apply existsb_exists. exists flags. split; [exact Hin|].
    apply String.eqb_refl. }
  rewrite Hflag. cbn [negb]. unfold bind at 1.
  rewrite _get_r_cmd_config_run.
  destruct (run w _) as [|status out]; [now exists []|].
  destruct (Z.eqb status 0); [|now exists []].
  destruct (PyStr.split _ _) as [|l0 rest]; [now exists []|].
  destruct (PyStr.startswith l0 "WARNING");
    match goal with
    | |- context [let '(l2, r) := ?m in _] => destruct m as [l2 r]
    end; eexists; reflexivity.
Qed.

(** X21: the home whose flags [iter_info] reports is never the value
    of R_HOME: off Windows it is what [R RHOME] printed, and on win32
    it is the install path of the registry, even when [R RHOME]
    printed a home.  With such a home [h], [iter_info] runs
    [h/bin/R CMD config --ldflags]. *)
Theorem iter_info_home_used (py : Interpreter) (w : World)
  (lh lv : list event) (li : list item) (vh v : option string)
  (st h : string) :
  r_home_from_subprocess w = (lh, Ok vh) ->
  r_version_from_subprocess w = (lv, Ok v) ->
  rlib_status_of py w = (li, Ok st) ->
  (if String.eqb (platform w) "win32"
   then registry w registry_key "InstallPath" else vh) = Some h ->
  In (Effect (Exec (config_command w h "--ldflags")))
     (fst (iter_info py w)).
Proof.
  intros Hh Hv Hi Hhome.
  apply run_in_run in Hh, Hv.
  pose proof (get_r_flags_log w h "--ldflags" ltac:(left; reflexivity))
    as (tl & Hlog).
  assert (Hin : forall (r_home : option string)
                       (f : Namespace argval * list string -> G unit),
             r_home = Some h ->
             In (Effect (Exec (config_command w h "--ldflags")))
                (fst (gbind (run_in (get_r_flags_of r_home "--ldflags")) f w))).
  { intros r_home f ->.
    destruct (gbind_log (run_in (get_r_flags_of (Some h) "--ldflags")) f w)
      as (tl' & ->).
    apply in_or_app. left. unfold run_in, get_r_flags_of.
    destruct (get_r_flags h "--ldflags" w) as [l r]. cbn [fst] in *.
    subst l. cbn. auto. }
  unfold iter_info.
  destruct (String.eqb (platform w) "win32") eqn:Hw.
  - assert (Hreg : run_in r_home_from_registry w
                   = (map Effect [RegistryQuery registry_key "InstallPath"],
                      Ok (Some h))).
    { assert (Hp : platform w = "win32") by now apply String.eqb_eq.
      apply run_in_run. unfold r_home_from_registry, bind, ask, emit, ret.
      cbn. rewrite Hp. cbn. now rewrite Hhome. }
    assert (Hnest :
              (r_home <~ run_in r_home_from_registry;;
               yield (RowStr ("    InstallPath in the registry: "
                              +:+ fmt r_home)) ~;;
               gret r_home) w
              = ([Effect (RegistryQuery registry_key "InstallPath");
                  Yield (RowStr ("    InstallPath in the registry: " +:+ h))],
                 Ok (Some h))).
    { step_with ltac:(exact Hreg). reflexivity. }
    destruct (has_rpy2 py); destruct (negb _);
      step_with ltac:(first [exact Hh | exact Hv | exact Hi]);
      rewrite ?Hw;
      step_with ltac:(first [exact Hh | exact Hv | exact Hi | exact Hnest]);
      repeat (apply in_or_app; right); now apply Hin.
  - destruct (has_rpy2 py); destruct (negb _);
      step_with ltac:(first [exact Hh | exact Hv | exact Hi]);
      rewrite ?Hw;
      step_with ltac:(first [exact Hh | exact Hv | exact Hi]);
      repeat (apply in_or_app; right); now apply Hin.
Qed.

Lemma iter_info_home_used_witness :
  In (Effect (Exec (config_command
                      (windows_host {[ "R_HOME" := "E:\R" ]}
                         (always 0 "C:\R") (Some "D:\R"))
                      "D:\R" "--ldflags")))
     (fst (iter_info (cpython (3, 8))
             (windows_host {[ "R_HOME" := "E:\R" ]}
                (always 0 "C:\R") (Some "D:\R")))).
Proof.
  apply (iter_info_home_used (cpython (3, 8))
           (windows_host {[ "R_HOME" := "E:\R" ]}
              (always 0 "C:\R") (Some "D:\R"))
           [Exec ["R"; "RHOME"]] [Exec ["R"; "--version"]] []
           (Some "C:\R") (Some "C:\R") "*** rpy2 is not installed" "D:\R");
    reflexivity.
Defined.

(** ** Versions and modes *)

(** X22: the check compares the two numbers of the version
    separately: it passes when both are at least 3, and it refuses every
    version whose second number is below 3, whatever the first is (so
    4.0 is refused). *)
Theorem assert_python_version_by_parts (major minor : Z) :
  (3 <= major -> 3 <= minor ->
   assert_python_version (major, minor) = VersionOk)
  /\ (minor < 3 ->
      assert_python_version (major, minor)
      = RuntimeError "Python >=3.3 is required to run rpy2")
  /\ (major < 3 ->
      assert_python_version (major, minor)
      = RuntimeError "Python >=3.3 is required to run rpy2").
Proof.
  unfold assert_python_version. cbn [fst snd]. repeat split.
  - intros H1 H2. apply Z.leb_le in H1, H2. now rewrite H1, H2.
  - intros H. apply Z.leb_gt in H. now rewrite H, andb_false_r.
  - intros H. apply Z.leb_gt in H. now rewrite H.
Qed.

Lemma assert_python_version_by_parts_witness :
  assert_python_version (3, 8) = VersionOk
  /\ assert_python_version (4, 0)
     = RuntimeError "Python >=3.3 is required to run rpy2"
  /\ assert_python_version (2, 7)
     = RuntimeError "Python >=3.3 is required to run rpy2".
Proof.
  split; [|split].
  - apply (proj1 (assert_python_version_by_parts 3 8)); lia.
  - apply (proj1 (proj2 (assert_python_version_by_parts 4 0))); lia.
  - apply (proj2 (proj2 (assert_python_version_by_parts 2 7))); lia.
Defined.

(** X23: whatever default is passed, a value of RPY2_CFFI_MODE that
    names a mode (up to case) selects that mode, and the default is
    returned exactly when the variable is unset or names none; the
    environment is all that is read. *)
Theorem get_cffi_mode_default (default : CFFI_MODE) (w : World) :
  (forall v m,
      environ w !! "RPY2_CFFI_MODE" = Some v ->
      PyStr.upper v = value m ->
      get_cffi_mode default w = ([], Ok m))
  /\ (environ w !! "RPY2_CFFI_MODE" = None ->
      get_cffi_mode default w = ([], Ok default))
  /\ (forall v,
      environ w !! "RPY2_CFFI_MODE" = Some v ->
      (forall m, PyStr.upper v <> value m) ->
      get_cffi_mode default w = ([], Ok default)).
Proof.
  split; [|split].
  - intros v m Hv Hm. rewrite get_cffi_mode_run, Hv. cbn [from_option id].
    unfold first_mode. rewrite Hm. destruct m; reflexivity.
  - intros Hv. now rewrite get_cffi_mode_run, Hv.
  - intros v Hv Hno. rewrite get_cffi_mode_run, Hv. cbn [from_option id].
    unfold first_mode.
    destruct (String.eqb_spec (PyStr.upper v) (value API)) as [E|_];
      [now destruct (Hno API)|].
    destruct (String.eqb_spec (PyStr.upper v) (value ABI)) as [E|_];
      [now destruct (Hno ABI)|].
    destruct (String.eqb_spec (PyStr.upper v) (value BOTH)) as [E|_];
      [now destruct (Hno BOTH)|].
    reflexivity.
Qed.

Lemma get_cffi_mode_default_witness :
  get_cffi_mode BOTH (linux_host {[ "RPY2_CFFI_MODE" := "api" ]} no_R)
    = ([], Ok API)
  /\ get_cffi_mode BOTH (linux_host ∅ no_R) = ([], Ok BOTH)
  /\ get_cffi_mode API (linux_host {[ "RPY2_CFFI_MODE" := "A P I" ]} no_R)
     = ([], Ok API).
Proof.
  split; [|split].
  - apply (proj1 (get_cffi_mode_default BOTH _) "api" API); reflexivity.
  - apply (proj1 (proj2 (get_cffi_mode_default BOTH _))); reflexivity.
  - apply (proj2 (proj2 (get_cffi_mode_default API _)) "A P I");
      [reflexivity | intros []; vm_compute; discriminate].
Defined.
